(** * Media player: playback control core

    A shallow embedding of the screens of the media-player application:

    - [Player]  : the video screen, [src/app/(tabs)/index.tsx]
    - [Audio]   : the audio screen, [src/app/(tabs)/audio.tsx]
    - [Library] : the library screen, [src/unnamed/part_000]

    Every React component is modelled as a record holding its [useState]
    cells and [useRef] cells, together with the part of the environment its
    handlers talk to (the pending [setTimeout] callbacks, a clock, the log of
    commands sent to the media engine).  Every handler is a function from
    state to state.  Handlers run atomically: an [await] inside a handler is
    not a preemption point of the model, and engine commands are taken to
    resolve.  Times and positions are integers (milliseconds).

    The screens are taken to render: the action bar of index.tsx uses an
    icon, [Library], that the file does not import, and the model takes the
    identifier to be bound, as the other icons of the file are.

    Left out, because no handler reads them back: haptic feedback, alerts,
    console output, the animations of the audio screen, and the [volume]
    cell of the video screen, which is never set.  [setTimeout] is taken to
    return positive, ever-increasing ids, as the platform's timers do. *)

From Stdlib Require Import ZArith QArith List Bool Lia.
From stdpp Require Import base strings list pretty gmap.
Import ListNotations.

Local Open Scope Z_scope.

(** ** The document picker (expo-document-picker) *)

Module DocumentPicker.

(** One picked asset.  [mimeType] and [size] are optional in the picker's
    result type. *)
Record Asset := {
  uri : string;
  name : string;
  mimeType : option string;
  size : option Z
}.

(** What [getDocumentAsync] resolves to: [{canceled: true}], a list of
    assets, or a rejected promise. *)
Inductive Result :=
| Canceled
| Assets (assets : list Asset)
| Throws.

End DocumentPicker.

(** ** JavaScript operators used by the handlers *)

Module Js.

(** [s || d] for a string [s]: the empty string is falsy. *)
Definition str_or (s d : string) : string :=
  if decide (s = "") then d else s.

(** [n || d] for an optional number [n]: [undefined] and [0] are falsy. *)
Definition num_or (n : option Z) (d : Z) : Z :=
  match n with
  | Some z => if z =? 0 then d else z
  | None => d
  end.

(** [b || d] for an optional boolean. *)
Definition bool_or (b : option bool) (d : bool) : bool :=
  match b with
  | Some true => true
  | _ => d
  end.

(** Truthiness of a string-or-null value such as [videoUri]. *)
Definition truthy_str (s : option string) : bool :=
  match s with
  | Some u => negb (bool_decide (u = ""))
  | None => false
  end.

(** [Array.prototype.indexOf]: the first index holding [x], or [-1]. *)
Fixpoint indexOf (x : string) (l : list string) : Z :=
  match l with
  | [] => -1
  | y :: l' =>
      if decide (y = x) then 0
      else let i := indexOf x l' in if i <? 0 then -1 else i + 1
  end.

(** [a % b] is the truncated remainder. *)
Definition rem (a b : Z) : Z := Z.rem a b.

(** [s.padStart(n, '0')]. *)
Definition padStart0 (n : nat) (s : string) : string :=
  String.concat "" (replicate (n - String.length s) "0") +:+ s.

End Js.

(** ** The engine's status snapshot (expo-av [AVPlaybackStatus]) *)

Module AV.

(** A status object.  A field is [None] when the object has no such key,
    so ['positionMillis' in status] is [is_Some (positionMillis status)]
    and [{}] is [empty]. *)
Record PlaybackStatus := {
  isLoaded : option bool;
  isPlaying : option bool;
  positionMillis : option Z;
  durationMillis : option Z;
  rate : option Q
}.

Definition empty : PlaybackStatus :=
  {| isLoaded := None; isPlaying := None; positionMillis := None;
     durationMillis := None; rate := None |}.

Definition has {A} (field : option A) : bool :=
  match field with Some _ => true | None => false end.

End AV.

(** ** Shared by both player screens: [formatTime] *)

(** The integers a JavaScript [number] holds exactly:
    [-2^53 < z < 2^53]. *)
Definition safeInteger (z : Z) : bool := (- 2 ^ 53 <? z) && (z <? 2 ^ 53).

(** [formatTime], on the safe integers, where the division, [Math.floor],
    [%] and the decimal printing of the source are exact.  Outside that
    range the source rounds its argument and, for minutes from 1e21 on,
    prints them in exponent form; that range is not modelled and the
    result is [None] there. *)
Definition formatTime (millis : Z) : option string :=
  if safeInteger millis then
    let totalSeconds := millis / 1000 in
    let minutes := totalSeconds / 60 in
    let seconds := Js.rem totalSeconds 60 in
    Some (pretty minutes +:+ ":" +:+ Js.padStart0 2 (pretty seconds))
  else None.

(** ** The video screen, [PlayerScreen] of index.tsx *)

Module Player.

(** [PLAYBACK_SPEEDS], in the insertion order [Object.keys] reports. *)
Definition PLAYBACK_SPEEDS : list (string * Q) :=
  [ ("0.5x", 0.5%Q); ("0.75x", 0.75%Q); ("1x", 1.0%Q); ("1.25x", 1.25%Q);
    ("1.5x", 1.5%Q); ("2x", 2.0%Q); ("3x", 3.0%Q); ("4x", 4.0%Q) ].

Definition speedKeys : list string := map fst PLAYBACK_SPEEDS.

(** [PLAYBACK_SPEEDS[label]]; [None] stands for [undefined]. *)
Fixpoint speedOf_in (table : list (string * Q)) (label : string) : option Q :=
  match table with
  | [] => None
  | (k, v) :: rest => if decide (k = label) then Some v else speedOf_in rest label
  end.

Definition speedOf : string -> option Q := speedOf_in PLAYBACK_SPEEDS.

(** A pending [setTimeout] callback created by [resetControlsTimeout].
    The callback reads [isPlaying] from the render in which it was
    created: [closure_isPlaying] is that captured constant. *)
Record Timer := {
  tid : nat;
  deadline : Z;
  closure_isPlaying : bool
}.

(** Commands sent through [videoRef.current]. *)
Inductive EngineCmd :=
| PauseAsync
| PlayAsync
| SetRateAsync (rate : option Q) (shouldCorrectPitch : bool)
| SetPositionAsync (positionMillis : Z).

Record State := {
  (* useState *)
  status : AV.PlaybackStatus;
  isPlaying : bool;
  currentSpeed : string;
  videoUri : option string;
  showControls : bool;
  isFullscreen : bool;
  currentFileName : string;
  (* useRef *)
  controlsTimeoutRef : option nat;
  (* environment *)
  timers : list Timer;      (* pending timeouts, oldest first *)
  nextTimerId : nat;        (* the id the next setTimeout returns *)
  now : Z;                  (* clock, ms *)
  commands : list EngineCmd (* commands issued so far, oldest first *)
}.

Definition set_status v s :=
  {| status := v; isPlaying := isPlaying s; currentSpeed := currentSpeed s;
     videoUri := videoUri s; showControls := showControls s;
     isFullscreen := isFullscreen s; currentFileName := currentFileName s;
     controlsTimeoutRef := controlsTimeoutRef s; timers := timers s;
     nextTimerId := nextTimerId s; now := now s; commands := commands s |}.

Definition set_isPlaying v s :=
  {| status := status s; isPlaying := v; currentSpeed := currentSpeed s;
     videoUri := videoUri s; showControls := showControls s;
     isFullscreen := isFullscreen s; currentFileName := currentFileName s;
     controlsTimeoutRef := controlsTimeoutRef s; timers := timers s;
     nextTimerId := nextTimerId s; now := now s; commands := commands s |}.

Definition set_currentSpeed v s :=
  {| status := status s; isPlaying := isPlaying s; currentSpeed := v;
     videoUri := videoUri s; showControls := showControls s;
     isFullscreen := isFullscreen s; currentFileName := currentFileName s;
     controlsTimeoutRef := controlsTimeoutRef s; timers := timers s;
     nextTimerId := nextTimerId s; now := now s; commands := commands s |}.

Definition set_videoUri v s :=
  {| status := status s; isPlaying := isPlaying s; currentSpeed := currentSpeed s;
     videoUri := v; showControls := showControls s;
     isFullscreen := isFullscreen s; currentFileName := currentFileName s;
     controlsTimeoutRef := controlsTimeoutRef s; timers := timers s;
     nextTimerId := nextTimerId s; now := now s; commands := commands s |}.

Definition set_showControls v s :=
  {| status := status s; isPlaying := isPlaying s; currentSpeed := currentSpeed s;
     videoUri := videoUri s; showControls := v;
     isFullscreen := isFullscreen s; currentFileName := currentFileName s;
     controlsTimeoutRef := controlsTimeoutRef s; timers := timers s;
     nextTimerId := nextTimerId s; now := now s; commands := commands s |}.

Definition set_isFullscreen v s :=
  {| status := status s; isPlaying := isPlaying s; currentSpeed := currentSpeed s;
     videoUri := videoUri s; showControls := showControls s;
     isFullscreen := v; currentFileName := currentFileName s;
     controlsTimeoutRef := controlsTimeoutRef s; timers := timers s;
     nextTimerId := nextTimerId s; now := now s; commands := commands s |}.

Definition set_currentFileName v s :=
  {| status := status s; isPlaying := isPlaying s; currentSpeed := currentSpeed s;
     videoUri := videoUri s; showControls := showControls s;
     isFullscreen := isFullscreen s; currentFileName := v;
     controlsTimeoutRef := controlsTimeoutRef s; timers := timers s;
     nextTimerId := nextTimerId s; now := now s; commands := commands s |}.

Definition set_timers ref v next s :=
  {| status := status s; isPlaying := isPlaying s; currentSpeed := currentSpeed s;
     videoUri := videoUri s; showControls := showControls s;
     isFullscreen := isFullscreen s; currentFileName := currentFileName s;
     controlsTimeoutRef := ref; timers := v;
     nextTimerId := next; now := now s; commands := commands s |}.

Definition set_now v s :=
  {| status := status s; isPlaying := isPlaying s; currentSpeed := currentSpeed s;
     videoUri := videoUri s; showControls := showControls s;
     isFullscreen := isFullscreen s; currentFileName := currentFileName s;
     controlsTimeoutRef := controlsTimeoutRef s; timers := timers s;
     nextTimerId := nextTimerId s; now := v; commands := commands s |}.

(** Sending a command to the engine appends it to the log. *)
Definition issue (c : EngineCmd) s :=
  {| status := status s; isPlaying := isPlaying s; currentSpeed := currentSpeed s;
     videoUri := videoUri s; showControls := showControls s;
     isFullscreen := isFullscreen s; currentFileName := currentFileName s;
     controlsTimeoutRef := controlsTimeoutRef s; timers := timers s;
     nextTimerId := nextTimerId s; now := now s; commands := commands s ++ [c] |}.

(** [videoRef.current]: the [Video] element is rendered exactly when
    [!videoUri] is false. *)
Definition videoRef_current (s : State) : bool := Js.truthy_str (videoUri s).

(** *** Timers *)

Definition clearTimeout (id : nat) (ts : list Timer) : list Timer :=
  List.filter (fun t => negb (Nat.eqb (tid t) id)) ts.

(** [resetControlsTimeout], as created by a render whose [isPlaying] was
    [captured]. *)
Definition resetControlsTimeout (captured : bool) (s : State) : State :=
  let kept :=
    match controlsTimeoutRef s with
    | Some id => if Nat.eqb id 0 then timers s else clearTimeout id (timers s)
    | None => timers s
    end in
  let t := {| tid := nextTimerId s; deadline := now s + 3000;
              closure_isPlaying := captured |} in
  set_timers (Some (nextTimerId s)) (kept ++ [t]) (S (nextTimerId s)) s.

(** [useEffect(() => resetControlsTimeout(), [showControls])]: after a
    handler, if [showControls] changed the component re-renders and the
    effect runs with the new render's [resetControlsTimeout]. *)
Definition commit (before after : State) : State :=
  if Bool.eqb (showControls before) (showControls after) then after
  else resetControlsTimeout (isPlaying after) after.

(** The state after the first render: the effect has run once. *)
Definition mount : State :=
  resetControlsTimeout false
    {| status := AV.empty; isPlaying := false; currentSpeed := "1x";
       videoUri := None; showControls := true; isFullscreen := false;
       currentFileName := ""; controlsTimeoutRef := None;
       timers := []; nextTimerId := 1; now := 0; commands := [] |}.

(** *** Handlers *)

Definition pickVideo (result : DocumentPicker.Result) (s : State) : State :=
  match result with
  | DocumentPicker.Assets (asset :: _) =>
      set_currentFileName (Js.str_or (DocumentPicker.name asset) "Unknown")
        (set_videoUri (Some (DocumentPicker.uri asset)) s)
  | _ => s
  end.

Definition togglePlayPause (s : State) : State :=
  let s1 :=
    if videoRef_current s then
      if isPlaying s then issue PauseAsync s else issue PlayAsync s
    else s in
  commit s (resetControlsTimeout (isPlaying s) (set_showControls true s1)).

Definition changeSpeed (s : State) : State :=
  let speeds := speedKeys in
  let currentIndex := Js.indexOf (currentSpeed s) speeds in
  let nextIndex := Js.rem (currentIndex + 1) (Z.of_nat (length speeds)) in
  let nextSpeed := nth (Z.to_nat nextIndex) speeds "" in
  let s1 := set_currentSpeed nextSpeed s in
  let s2 :=
    if videoRef_current s then issue (SetRateAsync (speedOf nextSpeed) true) s1
    else s1 in
  commit s (resetControlsTimeout (isPlaying s) (set_showControls true s2)).

Definition seekBackward (s : State) : State :=
  let s1 :=
    if videoRef_current s && AV.has (AV.positionMillis (status s)) then
      let newPosition :=
        Z.max 0 (Js.num_or (AV.positionMillis (status s)) 0 - 10000) in
      issue (SetPositionAsync newPosition) s
    else s in
  commit s (resetControlsTimeout (isPlaying s) (set_showControls true s1)).

Definition seekForward (s : State) : State :=
  let s1 :=
    if videoRef_current s && AV.has (AV.positionMillis (status s))
       && AV.has (AV.durationMillis (status s)) then
      let newPosition :=
        Z.min (Js.num_or (AV.durationMillis (status s)) 0)
              (Js.num_or (AV.positionMillis (status s)) 0 + 10000) in
      issue (SetPositionAsync newPosition) s
    else s in
  commit s (resetControlsTimeout (isPlaying s) (set_showControls true s1)).

Definition toggleFullscreen (s : State) : State :=
  let s1 := set_isFullscreen (negb (isFullscreen s)) s in
  commit s (resetControlsTimeout (isPlaying s) (set_showControls true s1)).

Definition handleVideoTap (s : State) : State :=
  let s1 := set_showControls (negb (showControls s)) s in
  let s2 := if negb (showControls s) then resetControlsTimeout (isPlaying s) s1
            else s1 in
  commit s s2.

Definition onPlaybackStatusUpdate (playbackStatus : AV.PlaybackStatus)
    (s : State) : State :=
  let s1 := set_status playbackStatus s in
  if AV.has (AV.isLoaded playbackStatus) then
    set_isPlaying (Js.bool_or (AV.isPlaying playbackStatus) false) s1
  else s1.

(** The callback handed to [setTimeout] by [resetControlsTimeout]. *)
Definition timeoutCallback (t : Timer) (s : State) : State :=
  if closure_isPlaying t then set_showControls false s else s.

(** Timer [id] fires: it must be pending and due; it leaves the pending
    list and its callback runs. *)
Definition fire (id : nat) (s : State) : State :=
  match List.find (fun t => Nat.eqb (tid t) id) (timers s) with
  | Some t =>
      if deadline t <=? now s then
        let s1 := set_timers (controlsTimeoutRef s) (clearTimeout id (timers s))
                    (nextTimerId s) s in
        commit s1 (timeoutCallback t s1)
      else s
  | None => s
  end.

(** *** The screen as a transition system *)

(** What can happen to the screen.  A status event carries, besides the
    status object the handler receives, the number of the engine instance
    that produced it ([origin]); the handler has no access to it. *)
Inductive Op :=
| PickVideo (result : DocumentPicker.Result)
| TogglePlayPause
| ChangeSpeed
| SeekBackward
| SeekForward
| ToggleFullscreen
| HandleVideoTap
| PlaybackStatusUpdate (origin : nat) (playbackStatus : AV.PlaybackStatus)
| Elapse (ms : nat)
| TimerFires (id : nat).

Definition step (s : State) (op : Op) : State :=
  match op with
  | PickVideo r => pickVideo r s
  | TogglePlayPause => togglePlayPause s
  | ChangeSpeed => changeSpeed s
  | SeekBackward => seekBackward s
  | SeekForward => seekForward s
  | ToggleFullscreen => toggleFullscreen s
  | HandleVideoTap => handleVideoTap s
  | PlaybackStatusUpdate _ st => onPlaybackStatusUpdate st s
  | Elapse ms => set_now (now s + Z.of_nat ms) s
  | TimerFires id => fire id s
  end.

Definition run (s : State) (ops : list Op) : State := fold_left step ops s.

(** Which operations the rendered tree offers in state [s]: the
    transport buttons exist while a video is shown with its controls
    overlay, the tap area while a video is shown, the file button on the
    welcome card or in the action bar. *)
Definition offered (s : State) (op : Op) : bool :=
  match op with
  | PickVideo _ => negb (Js.truthy_str (videoUri s)) || negb (isFullscreen s)
  | TogglePlayPause | ChangeSpeed | SeekBackward | SeekForward
  | ToggleFullscreen => Js.truthy_str (videoUri s) && showControls s
  | HandleVideoTap | PlaybackStatusUpdate _ _ => Js.truthy_str (videoUri s)
  | Elapse _ => true
  | TimerFires id =>
      match List.find (fun t => Nat.eqb (tid t) id) (timers s) with
      | Some t => deadline t <=? now s
      | None => false
      end
  end.

(** [run] restricted to operations the screen offers. *)
Fixpoint run_ui (s : State) (ops : list Op) : option State :=
  match ops with
  | [] => Some s
  | op :: rest => if offered s op then run_ui (step s op) rest else None
  end.

(** The engine instance in use after a history of operations: every
    successful pick hands the [Video] element a new source. *)
Definition loads (op : Op) : bool :=
  match op with
  | PickVideo (DocumentPicker.Assets (_ :: _)) => true
  | _ => false
  end.

Definition currentEngine (history : list Op) : nat :=
  length (List.filter loads history).

End Player.

(** ** The audio screen, [AudioScreen] of audio.tsx *)

Module Audio.

(** Commands sent to an [Audio.Sound] object, named by its handle. *)
Inductive EngineCmd :=
| UnloadAsync (sound : nat)
| PauseAsync (sound : nat)
| PlayAsync (sound : nat).

Record State := {
  (* useState *)
  sound : option nat;
  isPlaying : bool;
  currentTrack : option string;
  trackName : string;
  position : Z;
  duration : Z;
  isLoading : bool;
  (* environment *)
  nextSound : nat;           (* the handle the next createAsync returns *)
  commands : list EngineCmd  (* commands issued so far, oldest first *)
}.

Definition mount : State :=
  {| sound := None; isPlaying := false; currentTrack := None; trackName := "";
     position := 0; duration := 0; isLoading := false;
     nextSound := 0; commands := [] |}.

Definition issue (c : EngineCmd) (s : State) : State :=
  {| sound := sound s; isPlaying := isPlaying s; currentTrack := currentTrack s;
     trackName := trackName s; position := position s; duration := duration s;
     isLoading := isLoading s; nextSound := nextSound s;
     commands := commands s ++ [c] |}.

Definition set_isLoading (v : bool) (s : State) : State :=
  {| sound := sound s; isPlaying := isPlaying s; currentTrack := currentTrack s;
     trackName := trackName s; position := position s; duration := duration s;
     isLoading := v; nextSound := nextSound s; commands := commands s |}.

Definition set_isPlaying (v : bool) (s : State) : State :=
  {| sound := sound s; isPlaying := v; currentTrack := currentTrack s;
     trackName := trackName s; position := position s; duration := duration s;
     isLoading := isLoading s; nextSound := nextSound s; commands := commands s |}.

Definition set_duration (v : Z) (s : State) : State :=
  {| sound := sound s; isPlaying := isPlaying s; currentTrack := currentTrack s;
     trackName := trackName s; position := position s; duration := v;
     isLoading := isLoading s; nextSound := nextSound s; commands := commands s |}.

(** [setSound(newSound); setCurrentTrack(uri); setTrackName(name)] after
    [createAsync] returned a fresh handle. *)
Definition set_track (uri name : string) (s : State) : State :=
  {| sound := Some (nextSound s); isPlaying := isPlaying s;
     currentTrack := Some uri; trackName := name; position := position s;
     duration := duration s; isLoading := isLoading s;
     nextSound := S (nextSound s); commands := commands s |}.

(** [if (sound) await sound.unloadAsync()]. *)
Definition unloadCurrent (s : State) : State :=
  match sound s with
  | Some h => issue (UnloadAsync h) s
  | None => s
  end.

(** The cleanup of [useEffect(..., [sound])]: when the [sound] cell
    changes, the previous sound, if any, is unloaded. *)
Definition soundEffectCleanup (before : State) (after : State) : State :=
  match sound before with
  | Some h => if decide (sound after = Some h) then after
              else issue (UnloadAsync h) after
  | None => after
  end.

(** [pickAudio].  [result] is what the picker resolves to; [created] is
    what the engine answers: [None] when [Audio.Sound.createAsync]
    rejects, otherwise the status [getStatusAsync] reports for the new
    sound. *)
Definition pickAudio (result : DocumentPicker.Result)
    (created : option AV.PlaybackStatus) (s : State) : State :=
  let s0 := set_isLoading true s in
  let body :=
    match result with
    | DocumentPicker.Assets (asset :: _) =>
        let s1 := unloadCurrent s0 in
        match created with
        | None => s1
        | Some st =>
            let s2 := set_track (DocumentPicker.uri asset)
                        (Js.str_or (DocumentPicker.name asset) "Unknown Track") s1 in
            if Js.bool_or (AV.isLoaded st) false
            then set_duration (Js.num_or (AV.durationMillis st) 0) s2
            else s2
        end
    | _ => s0
    end in
  soundEffectCleanup s (set_isLoading false body).

(** [togglePlayPause].  [engine] is what [sound.getStatusAsync()]
    reports. *)
Definition togglePlayPause (engine : AV.PlaybackStatus) (s : State) : State :=
  match sound s with
  | None => s
  | Some h =>
      if Js.bool_or (AV.isLoaded engine) false then
        let s1 := if isPlaying s then issue (PauseAsync h) s
                  else issue (PlayAsync h) s in
        set_isPlaying (negb (isPlaying s)) s1
      else s
  end.

(** What can happen to the screen.  The component registers no status
    callback on its sounds ([setOnPlaybackStatusUpdate] is never called),
    so a status event emitted by an engine instance reaches no handler. *)
Inductive Op :=
| PickAudio (result : DocumentPicker.Result) (created : option AV.PlaybackStatus)
| TogglePlayPause (engine : AV.PlaybackStatus)
| EngineStatusEvent (origin : nat) (playbackStatus : AV.PlaybackStatus).

Definition step (s : State) (op : Op) : State :=
  match op with
  | PickAudio r c => pickAudio r c s
  | TogglePlayPause e => togglePlayPause e s
  | EngineStatusEvent _ _ => s
  end.

Definition run (s : State) (ops : list Op) : State := fold_left step ops s.

(** *** What the progress section renders *)

(** The [width] percentage of the progress bar. *)
Definition progressWidth (s : State) : Q :=
  if 0 <? duration s
  then ((inject_Z (position s) / inject_Z (duration s)) * 100)%Q
  else 0%Q.

Definition elapsedLabel (s : State) : option string := formatTime (position s).
Definition durationLabel (s : State) : option string := formatTime (duration s).

End Audio.

(** ** The library screen, [LibraryScreen] of part_000 *)

Module Library.

Inductive MediaType := video | audio.

Global Instance MediaType_eq_dec : EqDecision MediaType.
Proof. solve_decision. Defined.

Record MediaFile := {
  id : string;
  name : string;
  uri : string;
  type : MediaType;
  size : Z;
  addedAt : Z
}.

(** The filter tab: ['all' | 'video' | 'audio']. *)
Inductive Selected := all | only (t : MediaType).

Record State := {
  mediaFiles : list MediaFile;
  selectedType : Selected
}.

Definition mount : State := {| mediaFiles := []; selectedType := all |}.

(** [asset.mimeType?.startsWith('video/') ? 'video' : 'audio']. *)
Definition typeOf (mimeType : option string) : MediaType :=
  match mimeType with
  | Some m => if String.prefix "video/" m then video else audio
  | None => audio
  end.

(** The callback of [result.assets.map]: [dateNow] is what [Date.now()]
    returns while entry [index] is built, [newDate] the time
    [new Date()] records for it. *)
Definition toMediaFile (dateNow newDate : nat -> Z) (index : nat)
    (asset : DocumentPicker.Asset) : MediaFile :=
  {| id := pretty (dateNow index) +:+ "-" +:+ pretty index;
     name := Js.str_or (DocumentPicker.name asset) "Unknown";
     uri := DocumentPicker.uri asset;
     type := typeOf (DocumentPicker.mimeType asset);
     size := Js.num_or (DocumentPicker.size asset) 0;
     addedAt := newDate index |}.

Definition addMediaFile (result : DocumentPicker.Result)
    (dateNow newDate : nat -> Z) (s : State) : State :=
  match result with
  | DocumentPicker.Assets assets =>
      let newFiles := imap (toMediaFile dateNow newDate) assets in
      {| mediaFiles := mediaFiles s ++ newFiles; selectedType := selectedType s |}
  | _ => s
  end.

(** [removeMediaFile(id)] opens a confirmation; [confirmed] tells whether
    the user pressed Remove rather than Cancel. *)
Definition removeMediaFile (target : string) (confirmed : bool) (s : State) : State :=
  if confirmed then
    {| mediaFiles :=
         List.filter (fun file => negb (bool_decide (id file = target))) (mediaFiles s);
       selectedType := selectedType s |}
  else s.

Definition setSelectedType (sel : Selected) (s : State) : State :=
  {| mediaFiles := mediaFiles s; selectedType := sel |}.

Definition filteredFiles (s : State) : list MediaFile :=
  List.filter
    (fun file =>
       match selectedType s with
       | all => true
       | only t => bool_decide (type file = t)
       end)
    (mediaFiles s).

(** [mediaFiles.filter(f => f.type === t).length], the count shown in the
    tabs and in the stats bar. *)
Definition countOf (t : MediaType) (s : State) : nat :=
  length (List.filter (fun f => bool_decide (type f = t)) (mediaFiles s)).

(** What can happen to the screen: a pick through the add button, a
    removal request with the user's answer, a press on a filter tab. *)
Inductive Op :=
| AddMediaFile (result : DocumentPicker.Result) (dateNow newDate : nat -> Z)
| RemoveMediaFile (target : string) (confirmed : bool)
| SetSelectedType (sel : Selected).

Definition step (s : State) (op : Op) : State :=
  match op with
  | AddMediaFile r dateNow newDate => addMediaFile r dateNow newDate s
  | RemoveMediaFile target confirmed => removeMediaFile target confirmed s
  | SetSelectedType sel => setSelectedType sel s
  end.

Definition run (s : State) (ops : list Op) : State := fold_left step ops s.

(** The stats bar is rendered when [mediaFiles.length > 0]. *)
Definition statsBarShown (s : State) : bool := (0 <? length (mediaFiles s))%nat.

End Library.

(** ** The settings screen, [SettingsScreen] of part_001 *)

Module Settings.

(** The [settings] object of [useState]. *)
Definition initial : gmap string bool :=
  <["autoPlay" := true]> (<["hapticFeedback" := true]> (<["keepScreenOn" := false]>
  (<["hardwareAcceleration" := true]> (<["backgroundPlayback" := true]>
  (<["autoQualityAdjust" := true]> ∅))))).

(** [setSettings(prev => ({...prev, [key]: value}))]. *)
Definition updateSetting (key : string) (value : bool)
    (settings : gmap string bool) : gmap string bool :=
  <[key := value]> settings.

Inductive ItemType := toggle | navigation | info.

(** A [SettingItem], without its icon.  [value] is [None] where the item
    has none or where the setting it reads is [undefined]; [onToggle] is
    what the switch calls. *)
Record SettingItem := {
  id : string;
  title : string;
  subtitle : option string;
  type : ItemType;
  value : option bool;
  onToggle : option (bool -> gmap string bool -> gmap string bool)
}.

Definition playbackSettings (settings : gmap string bool) : list SettingItem :=
  [ {| id := "autoPlay"; title := "Auto Play";
       subtitle := Some "Automatically start playback when media loads";
       type := toggle; value := settings !! "autoPlay";
       onToggle := Some (updateSetting "autoPlay") |};
    {| id := "backgroundPlayback"; title := "Background Playback";
       subtitle := Some "Continue audio playback when app is minimized";
       type := toggle; value := settings !! "backgroundPlayback";
       onToggle := Some (updateSetting "backgroundPlayback") |};
    {| id := "autoQuality"; title := "Auto Quality Adjustment";
       subtitle := Some "Automatically adjust quality based on connection";
       type := toggle; value := settings !! "autoQualityAdjust";
       onToggle := Some (updateSetting "autoQualityAdjust") |} ].

Definition interfaceSettings (settings : gmap string bool) : list SettingItem :=
  [ {| id := "hapticFeedback"; title := "Haptic Feedback";
       subtitle := Some "Vibrate when interacting with controls";
       type := toggle; value := settings !! "hapticFeedback";
       onToggle := Some (updateSetting "hapticFeedback") |};
    {| id := "keepScreenOn"; title := "Keep Screen On";
       subtitle := Some "Prevent screen from turning off during playback";
       type := toggle; value := settings !! "keepScreenOn";
       onToggle := Some (updateSetting "keepScreenOn") |} ].

Definition performanceSettings (settings : gmap string bool) : list SettingItem :=
  [ {| id := "hardwareAcceleration"; title := "Hardware Acceleration";
       subtitle := Some "Use GPU for video decoding (recommended)";
       type := toggle; value := settings !! "hardwareAcceleration";
       onToggle := Some (updateSetting "hardwareAcceleration") |} ].

Definition appSettings : list SettingItem :=
  [ {| id := "about"; title := "About"; subtitle := Some "Version 1.0.0";
       type := navigation; value := None; onToggle := None |};
    {| id := "privacy"; title := "Privacy & Security";
       subtitle := Some "Manage your privacy settings";
       type := navigation; value := None; onToggle := None |} ].

(** The items in the order the four sections render them. *)
Definition items (settings : gmap string bool) : list SettingItem :=
  playbackSettings settings ++ interfaceSettings settings
    ++ performanceSettings settings ++ appSettings.

(** [renderSettingItem]: the row is disabled for a toggle item, and a
    switch is rendered exactly for a toggle item. *)
Definition rowDisabled (item : SettingItem) : bool :=
  match type item with toggle => true | _ => false end.

Definition switchValue (item : SettingItem) : option bool :=
  match type item with toggle => value item | _ => None end.

End Settings.

(** ** Sample inputs *)

Module Sample.

Definition a_mp4 : DocumentPicker.Asset :=
  {| DocumentPicker.uri := "file:///cache/a.mp4"; DocumentPicker.name := "a.mp4";
     DocumentPicker.mimeType := Some "video/mp4"; DocumentPicker.size := Some 1048576 |}.

Definition b_mp3 : DocumentPicker.Asset :=
  {| DocumentPicker.uri := "file:///cache/b.mp3"; DocumentPicker.name := "b.mp3";
     DocumentPicker.mimeType := Some "audio/mpeg"; DocumentPicker.size := Some 4096 |}.

(** A loaded status, as the engine reports it. *)
Definition loaded (playing : bool) (position : Z) (duration : option Z)
    : AV.PlaybackStatus :=
  {| AV.isLoaded := Some true; AV.isPlaying := Some playing;
     AV.positionMillis := Some position; AV.durationMillis := duration;
     AV.rate := Some 1.0%Q |}.


End Sample.

(** ** The specification's seek target *)

(** [clamp(x, lo, hi)]. *)
Definition clamp (x lo hi : Z) : Z := Z.min (Z.max x lo) hi.

(** The specification's words for [seekBy]:
    [clamp(positionMillis + delta, 0, durationMillis ?? positionMillis)]. *)
Definition seekBy_target_spec (st : AV.PlaybackStatus) (delta : Z) : Z :=
  let position := Js.num_or (AV.positionMillis st) 0 in
  clamp (position + delta) 0
        (match AV.durationMillis st with Some d => d | None => position end).

(** An engine that honours seeks: after an operation that issued
    [setPositionAsync(p)], it reports the status with position [p]. *)
Definition withPosition (p : Z) (st : AV.PlaybackStatus) : AV.PlaybackStatus :=
  {| AV.isLoaded := AV.isLoaded st; AV.isPlaying := AV.isPlaying st;
     AV.positionMillis := Some p; AV.durationMillis := AV.durationMillis st;
     AV.rate := AV.rate st |}.

Definition stepHonoured (s : Player.State) (op : Player.Op) : Player.State :=
  let s' := Player.step s op in
  match drop (length (Player.commands s)) (Player.commands s') with
  | [Player.SetPositionAsync p] =>
      Player.onPlaybackStatusUpdate (withPosition p (Player.status s')) s'
  | _ => s'
  end.

(** A mounted video whose status has position [p] and duration [d]. *)
Definition seekable (s : Player.State) (p d : Z) : Prop :=
  Player.videoRef_current s = true /\
  AV.positionMillis (Player.status s) = Some p /\
  AV.durationMillis (Player.status s) = Some d.

(** A seek button press. *)
Definition isSeek (op : Player.Op) : bool :=
  match op with
  | Player.SeekBackward | Player.SeekForward => true
  | _ => false
  end.

(** ** The timer discipline of the video screen *)

(** At most one timeout is pending; it is the one [controlsTimeoutRef]
    holds, and timer ids are positive and fresh. *)
Definition timers_ok (s : Player.State) : Prop :=
  (1 <= Player.nextTimerId s)%nat /\
  (Player.timers s = [] \/
   exists t, Player.timers s = [t] /\
             Player.controlsTimeoutRef s = Some (Player.tid t) /\
             (1 <= Player.tid t < Player.nextTimerId s)%nat).

(** ** The speed cycle *)

(** The label [changeSpeed] moves to from [label]: the computation of
    [nextSpeed] in its body. *)
Definition nextSpeedLabel (label : string) : string :=
  let speeds := Player.speedKeys in
  let currentIndex := Js.indexOf label speeds in
  let nextIndex := Js.rem (currentIndex + 1) (Z.of_nat (length speeds)) in
  nth (Z.to_nat nextIndex) speeds "".

(** ** Reading an entry id back *)

(** The character [-], code 45. *)
Definition dash : Ascii.ascii :=
  Ascii.Ascii true false true true false true false false.

(** No character of the string is a dash. *)
Fixpoint dashFree (s : string) : bool :=
  match s with
  | EmptyString => true
  | String c s' => negb (Ascii.eqb c dash) && dashFree s'
  end.

(** What follows the last dash of a string (the string itself if it has
    none). *)
Fixpoint afterLastDash (s : string) : string :=
  match s with
  | EmptyString => EmptyString
  | String c s' =>
      if dashFree s' then (if Ascii.eqb c dash then s' else String c s')
      else afterLastDash s'
  end.

(** ** What the engine reports and what it is sent *)

(** A status whose position and duration, where present, are not
    negative. *)
Definition reportsNonNegative (st : AV.PlaybackStatus) : Prop :=
  (forall p, AV.positionMillis st = Some p -> 0 <= p) /\
  (forall d, AV.durationMillis st = Some d -> 0 <= d).

Definition opReportsNonNegative (op : Player.Op) : Prop :=
  match op with
  | Player.PlaybackStatusUpdate _ st => reportsNonNegative st
  | _ => True
  end.

Definition seekNonNegative (c : Player.EngineCmd) : Prop :=
  match c with
  | Player.SetPositionAsync p => 0 <= p
  | _ => True
  end.

(** A rate command carries one of the table's rates and asks for pitch
    correction. *)
Definition rateFromTable (c : Player.EngineCmd) : Prop :=
  match c with
  | Player.SetRateAsync r pitch =>
      pitch = true /\ exists q, r = Some q /\ In q (map snd Player.PLAYBACK_SPEEDS)
  | _ => True
  end.

(** The buttons of the controls overlay. *)
Definition isButton (op : Player.Op) : bool :=
  match op with
  | Player.TogglePlayPause | Player.ChangeSpeed | Player.SeekBackward
  | Player.SeekForward | Player.ToggleFullscreen => true
  | _ => false
  end.

(** Every sound handle the audio screen has obtained is either the one it
    holds or has been sent [unloadAsync]. *)
Definition soundsAccountedFor (s : Audio.State) : Prop :=
  (forall h, Audio.sound s = Some h -> (h < Audio.nextSound s)%nat) /\
  (forall h, (h < Audio.nextSound s)%nat -> Audio.sound s <> Some h ->
             In (Audio.UnloadAsync h) (Audio.commands s)).

(** The commands an operation of the video screen sends to the engine,
    read off the handlers: play or pause, a rate, a position, each only
    under the handler's guard. *)
Definition sent (s : Player.State) (op : Player.Op) : list Player.EngineCmd :=
  match op with
  | Player.TogglePlayPause =>
      if Player.videoRef_current s
      then [if Player.isPlaying s then Player.PauseAsync else Player.PlayAsync]
      else []
  | Player.ChangeSpeed =>
      if Player.videoRef_current s
      then [Player.SetRateAsync
              (Player.speedOf (nextSpeedLabel (Player.currentSpeed s))) true]
      else []
  | Player.SeekBackward =>
      if Player.videoRef_current s && AV.has (AV.positionMillis (Player.status s))
      then [Player.SetPositionAsync
              (Z.max 0 (Js.num_or (AV.positionMillis (Player.status s)) 0 - 10000))]
      else []
  | Player.SeekForward =>
      if Player.videoRef_current s && AV.has (AV.positionMillis (Player.status s))
         && AV.has (AV.durationMillis (Player.status s))
      then [Player.SetPositionAsync
              (Z.min (Js.num_or (AV.durationMillis (Player.status s)) 0)
                     (Js.num_or (AV.positionMillis (Player.status s)) 0 + 10000))]
      else []
  | _ => []
  end.

(** A status event as expo-av types it: both variants of
    [AVPlaybackStatus] have the [isLoaded] key. *)
Definition opHasIsLoaded (op : Player.Op) : Prop :=
  match op with
  | Player.PlaybackStatusUpdate _ st => AV.has (AV.isLoaded st) = true
  | _ => True
  end.

(** ** The duration the audio screen has stored *)

(** What an operation does to the [duration] cell: only a pick whose new
    sound the engine reports as loaded writes it. *)
Definition durationAfter (d : Z) (op : Audio.Op) : Z :=
  match op with
  | Audio.PickAudio (DocumentPicker.Assets (_ :: _)) (Some st) =>
      if Js.bool_or (AV.isLoaded st) false
      then Js.num_or (AV.durationMillis st) 0 else d
  | _ => d
  end.

(** The duration stored after a history of operations, starting from the
    initial 0. *)
Definition lastLoadedDuration (ops : list Audio.Op) : Z :=
  fold_left durationAfter ops 0.

(** * Proofs *)

Section PlayerFacts.

Import Player.

(** [commit] and [resetControlsTimeout] only touch the timer fields. *)
Lemma reset_fields c s :
  status (resetControlsTimeout c s) = status s /\
  isPlaying (resetControlsTimeout c s) = isPlaying s /\
  currentSpeed (resetControlsTimeout c s) = currentSpeed s /\
  videoUri (resetControlsTimeout c s) = videoUri s /\
  showControls (resetControlsTimeout c s) = showControls s /\
  commands (resetControlsTimeout c s) = commands s /\
  now (resetControlsTimeout c s) = now s.
Proof. unfold resetControlsTimeout. simpl. tauto. Qed.

Lemma commit_fields b s :
  status (commit b s) = status s /\
  isPlaying (commit b s) = isPlaying s /\
  currentSpeed (commit b s) = currentSpeed s /\
  videoUri (commit b s) = videoUri s /\
  showControls (commit b s) = showControls s /\
  commands (commit b s) = commands s /\
  now (commit b s) = now s.
Proof.
  unfold commit. destruct (Bool.eqb _ _); [tauto | apply reset_fields].
Qed.

(** After a button handler, the fields are those of the handler's body
    with [showControls] set. *)
Lemma touched_fields b c s :
  let s' := commit b (resetControlsTimeout c (set_showControls true s)) in
  status s' = status s /\ isPlaying s' = isPlaying s /\
  currentSpeed s' = currentSpeed s /\ videoUri s' = videoUri s /\
  showControls s' = true /\ commands s' = commands s /\ now s' = now s.
Proof.
  intros s'. subst s'.
  destruct (commit_fields b (resetControlsTimeout c (set_showControls true s)))
    as (-> & -> & -> & -> & -> & -> & ->).
  destruct (reset_fields c (set_showControls true s))
    as (-> & -> & -> & -> & -> & -> & ->).
  simpl. tauto.
Qed.

Lemma togglePlayPause_fields s :
  status (togglePlayPause s) = status s /\
  isPlaying (togglePlayPause s) = isPlaying s /\
  currentSpeed (togglePlayPause s) = currentSpeed s /\
  commands (togglePlayPause s) =
    commands s ++
      (if videoRef_current s
       then [if isPlaying s then PauseAsync else PlayAsync] else []).
Proof.
  unfold togglePlayPause.
  match goal with |- context [commit ?b (resetControlsTimeout ?c (set_showControls true ?x))] =>
    destruct (touched_fields b c x) as (-> & -> & -> & _ & _ & -> & _) end.
  destruct (videoRef_current s), (isPlaying s) eqn:E; simpl;
    rewrite ?app_nil_r, ?E; auto.
Qed.

Lemma onPlaybackStatusUpdate_status ev s :
  status (onPlaybackStatusUpdate ev s) = ev.
Proof. unfold onPlaybackStatusUpdate. destruct (AV.has _); reflexivity. Qed.

Lemma onPlaybackStatusUpdate_isPlaying ev s :
  isPlaying (onPlaybackStatusUpdate ev s) =
    if AV.has (AV.isLoaded ev) then Js.bool_or (AV.isPlaying ev) false
    else isPlaying s.
Proof. unfold onPlaybackStatusUpdate. destruct (AV.has _); reflexivity. Qed.

End PlayerFacts.

(** ** Status events and the engine instance (C1) *)

Section StatusEvents.

Import Player.

(** C1, counterexample.  Two files are picked one after the other, so the
    engine instance in use is the second one.  A status event produced by
    the first instance is then delivered: the screen's status changes. *)
Lemma stale_event_changes_status :
  let history := [PickVideo (DocumentPicker.Assets [Sample.a_mp4]);
                  PickVideo (DocumentPicker.Assets [Sample.b_mp3])] in
  let stale := PlaybackStatusUpdate 1 (Sample.loaded true 5000 (Some 60000)) in
  exists s, run_ui mount history = Some s /\
            currentEngine history = 2%nat /\
            offered s stale = true /\
            status (step s stale) <> status s.
Proof.
  eexists. split; [reflexivity |]. split; [reflexivity |].
  split; [reflexivity |]. discriminate.
Qed.

(** C1, amended.  The video screen does not tell engine instances apart:
    whatever instance an event comes from, the delivered status object
    replaces [status], and two events carrying the same status object have
    the same effect.  The audio screen registers no status callback, so no
    event, stale or not, changes its state. *)
Theorem status_event_applied_whatever_its_origin :
  (forall (s : Player.State) origin ev,
      status (step s (PlaybackStatusUpdate origin ev)) = ev) /\
  (forall (s : Player.State) origin origin' ev,
      step s (PlaybackStatusUpdate origin ev) =
      step s (PlaybackStatusUpdate origin' ev)) /\
  (forall (a : Audio.State) origin ev,
      Audio.step a (Audio.EngineStatusEvent origin ev) = a).
Proof.
  split; [| split].
  - intros s origin ev. apply onPlaybackStatusUpdate_status.
  - reflexivity.
  - reflexivity.
Qed.

End StatusEvents.

(** ** Play and pause (C6, C7) *)

Section PlayPause.

Import Player.

(** C6, the failing input.  A file has been picked and the [Video]
    element is mounted, but the engine has not reported a loaded status
    yet (the status is still [{}], or reports [isLoaded: false]).  The
    play button is on screen; pressing it sends [playAsync] to the
    engine.  The audio screen's [togglePlayPause] asks the engine for
    [isLoaded] first and sends nothing in that situation. *)
Lemma togglePlayPause_before_load_issues_play :
  exists s,
    run_ui mount [PickVideo (DocumentPicker.Assets [Sample.a_mp4])] = Some s /\
    AV.isLoaded (status s) = None /\
    offered s TogglePlayPause = true /\
    commands s = [] /\
    commands (step s TogglePlayPause) = [PlayAsync] /\
    let notLoaded := {| AV.isLoaded := Some false; AV.isPlaying := None;
                        AV.positionMillis := None; AV.durationMillis := None;
                        AV.rate := None |} in
    commands (run s [PlaybackStatusUpdate 1 notLoaded; TogglePlayPause])
      = [PlayAsync].
Proof. eexists. repeat split. Qed.




End PlayPause.

(** ** Picking a file (C8) *)

Section Load.

Import Player.



End Load.

(** ** The speed cycle (C5) *)

Section Speed.

Import Player.

Lemma changeSpeed_fields s :
  currentSpeed (changeSpeed s) = nextSpeedLabel (currentSpeed s) /\
  commands (changeSpeed s) =
    commands s ++
      (if videoRef_current s
       then [SetRateAsync (speedOf (nextSpeedLabel (currentSpeed s))) true]
       else []).
Proof.
  unfold changeSpeed.
  match goal with |- context [commit ?b (resetControlsTimeout ?c (set_showControls true ?x))] =>
    destruct (touched_fields b c x) as (_ & _ & -> & _ & _ & -> & _) end.
  destruct (videoRef_current s); simpl; rewrite ?app_nil_r; auto.
Qed.

Lemma changeSpeed_repeated n : forall s,
  currentSpeed (run s (replicate n ChangeSpeed)) =
    Nat.iter n nextSpeedLabel (currentSpeed s).
Proof.
  induction n as [| n IH]; intros s; [reflexivity |].
  change (run s (replicate (S n) ChangeSpeed))
    with (run (changeSpeed s) (replicate n ChangeSpeed)).
  rewrite IH. destruct (changeSpeed_fields s) as [-> _].
  symmetry. apply Nat.iter_succ_r.
Qed.

Lemma speed_label_stays_in_table ops : forall s,
  In (currentSpeed s) speedKeys -> In (currentSpeed (run s ops)) speedKeys.
Proof.
  induction ops as [| op ops IH]; intros s Hs; [exact Hs |].
  apply IH. destruct op; simpl; try exact Hs.
  - destruct result as [| [| asset rest] |]; exact Hs.
  - destruct (togglePlayPause_fields s) as (_ & _ & -> & _). exact Hs.
  - destruct (changeSpeed_fields s) as [-> _].
    simpl in Hs. decompose [or] Hs; subst; try contradiction;
      match goal with H : _ = currentSpeed s |- _ => rewrite <- H end;
      vm_compute; tauto.
  - unfold seekBackward.
    match goal with |- context [commit ?b (resetControlsTimeout ?c (set_showControls true ?x))] =>
      destruct (touched_fields b c x) as (_ & _ & -> & _) end.
    destruct (_ && _); exact Hs.
  - unfold seekForward.
    match goal with |- context [commit ?b (resetControlsTimeout ?c (set_showControls true ?x))] =>
      destruct (touched_fields b c x) as (_ & _ & -> & _) end.
    destruct (_ && _); exact Hs.
  - unfold toggleFullscreen.
    match goal with |- context [commit ?b (resetControlsTimeout ?c (set_showControls true ?x))] =>
      destruct (touched_fields b c x) as (_ & _ & -> & _) end.
    exact Hs.
  - unfold handleVideoTap.
    match goal with |- context [commit ?b ?x] =>
      destruct (commit_fields b x) as (_ & _ & -> & _) end.
    destruct (negb _); [| exact Hs].
    match goal with |- context [resetControlsTimeout ?c ?x] =>
      destruct (reset_fields c x) as (_ & _ & -> & _) end.
    exact Hs.
  - unfold onPlaybackStatusUpdate. destruct (AV.has _); exact Hs.
  - unfold fire. destruct (find _ _); [| exact Hs].
    destruct (_ <=? _); [| exact Hs].
    match goal with |- context [commit ?b ?x] =>
      destruct (commit_fields b x) as (_ & _ & -> & _) end.
    unfold timeoutCallback. destruct (closure_isPlaying _); exact Hs.
Qed.

(** C5.  [changeSpeed] walks the table
    0.5, 0.75, 1.0, 1.25, 1.5, 2.0, 3.0, 4.0 in that order and wraps from
    the last entry to the first: from any label of the table, eight calls
    come back to that label; one call from ["1x"] gives ["1.25x"], one
    call from ["4x"] gives ["0.5x"]; the rate sent to a mounted video is
    the table's value for the new label.  The label of a reachable state
    is always in the table. *)
Theorem changeSpeed_cycles_through_the_table :
  map snd PLAYBACK_SPEEDS =
    [0.5%Q; 0.75%Q; 1.0%Q; 1.25%Q; 1.5%Q; 2.0%Q; 3.0%Q; 4.0%Q] /\
  (forall ops, In (currentSpeed (run mount ops)) speedKeys) /\
  (forall s, In (currentSpeed s) speedKeys ->
      currentSpeed (run s (replicate 8 ChangeSpeed)) = currentSpeed s) /\
  (forall s, currentSpeed s = "1x" -> currentSpeed (step s ChangeSpeed) = "1.25x") /\
  (forall s, currentSpeed s = "4x" -> currentSpeed (step s ChangeSpeed) = "0.5x") /\
  (forall s i, (i < 7)%nat -> speedKeys !! i = Some (currentSpeed s) ->
      speedKeys !! S i = Some (currentSpeed (step s ChangeSpeed))) /\
  (forall s, videoRef_current s = true ->
      commands (step s ChangeSpeed) =
        commands s ++ [SetRateAsync (speedOf (currentSpeed (step s ChangeSpeed))) true]).
Proof.
  split; [reflexivity |].
  split; [intros ops; apply speed_label_stays_in_table; vm_compute; tauto |].
  split; [| split; [| split; [| split]]].
  - intros s Hs. rewrite changeSpeed_repeated.
    simpl in Hs. decompose [or] Hs; try contradiction;
      match goal with H : _ = currentSpeed s |- _ => rewrite <- H end;
      vm_compute; reflexivity.
  - intros s Hs. simpl. destruct (changeSpeed_fields s) as [-> _].
    rewrite Hs. reflexivity.
  - intros s Hs. simpl. destruct (changeSpeed_fields s) as [-> _].
    rewrite Hs. reflexivity.
  - intros s i Hi Hl. simpl. destruct (changeSpeed_fields s) as [-> _].
    do 7 (destruct i as [| i];
          [injection Hl as <-; reflexivity |]).
    lia.
  - intros s Hv. simpl. destruct (changeSpeed_fields s) as [-> ->].
    rewrite Hv. reflexivity.
Qed.

(** C5, witness: the screen as mounted, and the screen after a pick. *)
Lemma changeSpeed_cycles_witness :
  currentSpeed (run mount (replicate 8 ChangeSpeed)) = "1x" /\
  currentSpeed (step mount ChangeSpeed) = "1.25x" /\
  currentSpeed (step (run mount (replicate 5 ChangeSpeed)) ChangeSpeed) = "0.5x" /\
  speedKeys !! 3%nat = Some (currentSpeed (step mount ChangeSpeed)) /\
  commands (step (step mount (PickVideo (DocumentPicker.Assets [Sample.a_mp4])))
              ChangeSpeed) = [SetRateAsync (Some 1.25%Q) true].
Proof.
  destruct changeSpeed_cycles_through_the_table
    as (_ & _ & H8 & H1 & H4 & Hi & Hc).
  split; [| split; [| split; [| split]]].
  - rewrite (H8 mount); [reflexivity | vm_compute; tauto].
  - apply (H1 mount). reflexivity.
  - apply (H4 (run mount (replicate 5 ChangeSpeed))). reflexivity.
  - apply (Hi mount 2%nat); [lia | reflexivity].
  - rewrite (Hc (step mount (PickVideo (DocumentPicker.Assets [Sample.a_mp4])))
               eq_refl). reflexivity.
Defined.

End Speed.

(** ** Seeking (C2) *)

Section Seek.

Import Player.

Lemma num_or_0 z : Js.num_or (Some z) 0 = z.
Proof. unfold Js.num_or. destruct (Z.eqb_spec z 0); congruence. Qed.

Lemma seekBackward_fields s :
  status (seekBackward s) = status s /\
  videoUri (seekBackward s) = videoUri s /\
  commands (seekBackward s) =
    commands s ++
      (if videoRef_current s && AV.has (AV.positionMillis (status s))
       then [SetPositionAsync
               (Z.max 0 (Js.num_or (AV.positionMillis (status s)) 0 - 10000))]
       else []).
Proof.
  unfold seekBackward.
  match goal with |- context [commit ?b (resetControlsTimeout ?c (set_showControls true ?x))] =>
    destruct (touched_fields b c x) as (-> & _ & _ & -> & _ & -> & _) end.
  destruct (_ && _); simpl; rewrite ?app_nil_r; auto.
Qed.

Lemma seekForward_fields s :
  status (seekForward s) = status s /\
  videoUri (seekForward s) = videoUri s /\
  commands (seekForward s) =
    commands s ++
      (if videoRef_current s && AV.has (AV.positionMillis (status s))
          && AV.has (AV.durationMillis (status s))
       then [SetPositionAsync
               (Z.min (Js.num_or (AV.durationMillis (status s)) 0)
                      (Js.num_or (AV.positionMillis (status s)) 0 + 10000))]
       else []).
Proof.
  unfold seekForward.
  match goal with |- context [commit ?b (resetControlsTimeout ?c (set_showControls true ?x))] =>
    destruct (touched_fields b c x) as (-> & _ & _ & -> & _ & -> & _) end.
  destruct (_ && _ && _); simpl; rewrite ?app_nil_r; auto.
Qed.

Lemma seek_targets s p d :
  seekable s p d -> 0 <= p <= d ->
  commands (step s SeekBackward) =
    commands s ++ [SetPositionAsync (seekBy_target_spec (status s) (-10000))] /\
  commands (step s SeekForward) =
    commands s ++ [SetPositionAsync (seekBy_target_spec (status s) 10000)] /\
  0 <= seekBy_target_spec (status s) (-10000) <= d /\
  0 <= seekBy_target_spec (status s) 10000 <= d.
Proof.
  intros (Hv & Hp & Hd) Hpd. simpl.
  destruct (seekBackward_fields s) as (_ & _ & ->).
  destruct (seekForward_fields s) as (_ & _ & ->).
  unfold seekBy_target_spec, clamp.
  rewrite Hv, Hp, Hd, !num_or_0. simpl.
  repeat split; try lia; do 3 f_equal; lia.
Qed.

Lemma honoured_seek_keeps_range s p d op :
  seekable s p d -> 0 <= p <= d -> isSeek op = true ->
  exists p', seekable (stepHonoured s op) p' d /\ 0 <= p' <= d.
Proof.
  intros Hs Hpd Hop.
  destruct (seek_targets s p d Hs Hpd) as (Hb & Hf & Hrb & Hrf).
  destruct Hs as (Hv & Hp & Hd).
  assert (Hkeep : forall t s', videoUri s' = videoUri s -> status s' = status s ->
            seekable (onPlaybackStatusUpdate (withPosition t (status s')) s') t d).
  { intros t s' Hu Hst. unfold seekable, videoRef_current, onPlaybackStatusUpdate.
    destruct (AV.has _); simpl; rewrite Hu, Hst, Hd;
      unfold videoRef_current in Hv; rewrite Hv; auto. }
  destruct op; try discriminate Hop; unfold stepHonoured.
  - rewrite Hb, drop_app_length.
    eexists; split; [| exact Hrb]. apply Hkeep; apply seekBackward_fields.
  - rewrite Hf, drop_app_length.
    eexists; split; [| exact Hrf]. apply Hkeep; apply seekForward_fields.
Qed.

Lemma honoured_seeks_keep_range ops : forall s p d,
  seekable s p d -> 0 <= p <= d -> forallb isSeek ops = true ->
  exists p', seekable (fold_left stepHonoured ops s) p' d /\ 0 <= p' <= d.
Proof.
  induction ops as [| op ops IH]; intros s p d Hs Hpd Hops.
  - exists p. split; assumption.
  - simpl in Hops. apply andb_true_iff in Hops as [Hop Hops].
    destruct (honoured_seek_keeps_range s p d op Hs Hpd Hop) as (p' & Hs' & Hpd').
    exact (IH _ p' d Hs' Hpd' Hops).
Qed.

(** C2, counterexample.  A loaded session whose status has no duration
    yet, at position 5000: the specification's target for a forward seek
    is [clamp(15000, 0, 5000) = 5000], but [seekForward] sends no seek at
    all.  And when the engine reports a position beyond the duration,
    [seekBackward] seeks beyond the duration. *)
Lemma seek_is_not_the_specified_clamp :
  (exists s,
      run_ui mount [PickVideo (DocumentPicker.Assets [Sample.a_mp4]);
                    PlaybackStatusUpdate 1 (Sample.loaded false 5000 None)] = Some s /\
      offered s SeekForward = true /\
      seekBy_target_spec (status s) 10000 = 5000 /\
      commands (step s SeekForward) = commands s /\
      commands (step s SeekForward) <>
        commands s ++ [SetPositionAsync (seekBy_target_spec (status s) 10000)]) /\
  (exists s,
      run_ui mount [PickVideo (DocumentPicker.Assets [Sample.a_mp4]);
                    PlaybackStatusUpdate 1 (Sample.loaded false 50000 (Some 20000))]
        = Some s /\
      offered s SeekBackward = true /\
      seekBy_target_spec (status s) (-10000) = 20000 /\
      commands (step s SeekBackward) = commands s ++ [SetPositionAsync 40000]).
Proof.
  split; eexists; (split; [reflexivity |]); repeat split; discriminate.
Qed.

(** C2, amended.  The video screen has two seek buttons with a fixed step
    of 10000 ms rather than a [seekBy] for any delta.  With a video mounted
    and a status whose position [p] and duration [d] satisfy
    [0 <= p <= d], [seekBackward] seeks to [clamp(p - 10000, 0, d)] and
    [seekForward] seeks to [clamp(p + 10000, 0, d)], both within
    [[0, d]]; so along any sequence of the two seeks, the engine reporting
    each requested position, the position stays within [[0, d]].
    [seekBackward] at position 5000 seeks to 0.  While the status has no
    duration, [seekForward] sends no seek. *)
Theorem seek_buttons_clamp_within_known_duration :
  (forall s p d, seekable s p d -> 0 <= p <= d ->
      commands (step s SeekBackward) =
        commands s ++ [SetPositionAsync (seekBy_target_spec (status s) (-10000))] /\
      commands (step s SeekForward) =
        commands s ++ [SetPositionAsync (seekBy_target_spec (status s) 10000)] /\
      0 <= seekBy_target_spec (status s) (-10000) <= d /\
      0 <= seekBy_target_spec (status s) 10000 <= d) /\
  (forall s p d ops, seekable s p d -> 0 <= p <= d -> forallb isSeek ops = true ->
      exists p', seekable (fold_left stepHonoured ops s) p' d /\ 0 <= p' <= d) /\
  (forall s, videoRef_current s = true ->
      AV.positionMillis (status s) = Some 5000 ->
      commands (step s SeekBackward) = commands s ++ [SetPositionAsync 0]) /\
  (forall s, AV.durationMillis (status s) = None ->
      commands (step s SeekForward) = commands s).
Proof.
  split; [exact seek_targets |].
  split; [intros s p d ops; apply honoured_seeks_keep_range |].
  split.
  - intros s Hv Hp. simpl. destruct (seekBackward_fields s) as (_ & _ & ->).
    rewrite Hv, Hp. reflexivity.
  - intros s Hd. simpl. destruct (seekForward_fields s) as (_ & _ & ->).
    rewrite Hd, andb_false_r, app_nil_r. reflexivity.
Qed.

(** C2, witness: a mounted video at position 5000 of 60000, then one
    without a duration. *)
Lemma seek_buttons_clamp_witness :
  let s := run mount [PickVideo (DocumentPicker.Assets [Sample.a_mp4]);
                      PlaybackStatusUpdate 1 (Sample.loaded false 5000 (Some 60000))] in
  let u := run mount [PickVideo (DocumentPicker.Assets [Sample.a_mp4]);
                      PlaybackStatusUpdate 1 (Sample.loaded false 5000 None)] in
  commands (step s SeekBackward) = [SetPositionAsync 0] /\
  commands (step s SeekForward) = [SetPositionAsync 15000] /\
  (exists p', seekable (fold_left stepHonoured
                          [SeekBackward; SeekForward; SeekForward; SeekBackward] s)
                       p' 60000 /\ 0 <= p' <= 60000) /\
  commands (step u SeekForward) = [].
Proof.
  intros s u.
  destruct seek_buttons_clamp_within_known_duration as (Ht & Hseq & H5 & Hn).
  assert (Hs : seekable s 5000 60000) by (repeat split).
  assert (Hr : 0 <= 5000 <= 60000) by lia.
  split; [| split; [| split]].
  - rewrite (H5 s eq_refl eq_refl). reflexivity.
  - destruct (Ht s 5000 60000 Hs Hr) as (_ & -> & _). reflexivity.
  - apply (Hseq s 5000 60000 _ Hs Hr). reflexivity.
  - rewrite (Hn u eq_refl). reflexivity.
Defined.

End Seek.

(** ** The idle-hide timer (C3, C4) *)

Section Timers.

Import Player.

(** [timers_ok] only reads the three timer fields. *)
Lemma timers_ok_same s s' :
  timers s' = timers s -> controlsTimeoutRef s' = controlsTimeoutRef s ->
  nextTimerId s' = nextTimerId s -> timers_ok s -> timers_ok s'.
Proof. unfold timers_ok. intros -> -> ->. tauto. Qed.

(** On a state with at most one pending timeout, the one the ref holds,
    [resetControlsTimeout] leaves exactly the timeout it creates. *)
Lemma reset_leaves_one c s :
  timers_ok s ->
  timers (resetControlsTimeout c s) =
    [{| tid := nextTimerId s; deadline := now s + 3000; closure_isPlaying := c |}]
  /\ controlsTimeoutRef (resetControlsTimeout c s) = Some (nextTimerId s)
  /\ nextTimerId (resetControlsTimeout c s) = S (nextTimerId s).
Proof.
  intros (Hn & [Hnil | (t & Ht & Hr & Hid)]); unfold resetControlsTimeout; simpl.
  - rewrite Hnil. destruct (controlsTimeoutRef s) as [id |]; [| auto].
    destruct (Nat.eqb id 0); auto.
  - rewrite Hr, Ht. simpl.
    destruct (Nat.eqb_spec (tid t) 0); [lia |].
    rewrite Nat.eqb_refl. auto.
Qed.

Lemma reset_timers_ok c s : timers_ok s -> timers_ok (resetControlsTimeout c s).
Proof.
  intros Hs. destruct (reset_leaves_one c s Hs) as (Ht & Hr & Hn).
  destruct Hs as (H1 & _). split; [lia |]. right.
  eexists. split; [exact Ht |]. simpl. split; [exact Hr | lia].
Qed.

Lemma commit_timers_ok b s : timers_ok s -> timers_ok (commit b s).
Proof.
  unfold commit. destruct (Bool.eqb _ _); [auto | apply reset_timers_ok].
Qed.

Lemma touched_timers_ok b c s :
  timers_ok s ->
  timers_ok (commit b (resetControlsTimeout c (set_showControls true s))).
Proof.
  intros Hs. apply commit_timers_ok, reset_timers_ok.
  revert Hs. apply timers_ok_same; reflexivity.
Qed.

(** A timer id that is not pending cannot fire. *)
Lemma fire_absent id s :
  (forall t, In t (timers s) -> tid t <> id) -> fire id s = s.
Proof.
  intros Habs. unfold fire.
  destruct (find _ _) as [t |] eqn:Hf; [| reflexivity].
  apply find_some in Hf as [Hin Heq].
  apply Nat.eqb_eq in Heq. destruct (Habs t Hin Heq).
Qed.

(** A timer that is not due cannot fire. *)
Lemma fire_early id s :
  (forall t, In t (timers s) -> now s < deadline t) -> fire id s = s.
Proof.
  intros Hearly. unfold fire.
  destruct (find _ _) as [t |] eqn:Hf; [| reflexivity].
  apply find_some in Hf as [Hin _].
  destruct (Z.leb_spec (deadline t) (now s)); [| reflexivity].
  specialize (Hearly t Hin). lia.
Qed.

Lemma fire_timers_ok id s : timers_ok s -> timers_ok (fire id s).
Proof.
  intros Hs. unfold fire.
  destruct (find _ _) as [t |] eqn:Hf; [| exact Hs].
  destruct (_ <=? _); [| exact Hs].
  apply commit_timers_ok.
  assert (Hcleared : timers_ok
            (set_timers (controlsTimeoutRef s) (clearTimeout id (timers s))
               (nextTimerId s) s)).
  { destruct Hs as (Hn & [Hnil | (t0 & Ht & _)]).
    - rewrite Hnil in Hf. discriminate.
    - split; [exact Hn |]. left. simpl. rewrite Ht in *. simpl in *.
      destruct (Nat.eqb (tid t0) id); [reflexivity | discriminate]. }
  unfold timeoutCallback. destruct (closure_isPlaying t); [| exact Hcleared].
  revert Hcleared. apply timers_ok_same; reflexivity.
Qed.

Lemma step_timers_ok s op : timers_ok s -> timers_ok (step s op).
Proof.
  intros Hs. destruct op; simpl.
  - destruct result as [| [| asset rest] |]; exact Hs.
  - unfold togglePlayPause. apply touched_timers_ok.
    destruct (videoRef_current s); [destruct (isPlaying s) |]; try exact Hs;
      revert Hs; apply timers_ok_same; reflexivity.
  - unfold changeSpeed. apply touched_timers_ok.
    destruct (videoRef_current s); revert Hs; apply timers_ok_same; reflexivity.
  - unfold seekBackward. apply touched_timers_ok.
    destruct (_ && _); [| exact Hs].
    revert Hs; apply timers_ok_same; reflexivity.
  - unfold seekForward. apply touched_timers_ok.
    destruct (_ && _ && _); [| exact Hs].
    revert Hs; apply timers_ok_same; reflexivity.
  - unfold toggleFullscreen. apply touched_timers_ok.
    revert Hs; apply timers_ok_same; reflexivity.
  - unfold handleVideoTap. apply commit_timers_ok.
    destruct (negb _); [apply reset_timers_ok |];
      revert Hs; apply timers_ok_same; reflexivity.
  - unfold onPlaybackStatusUpdate. destruct (AV.has _);
      revert Hs; apply timers_ok_same; reflexivity.
  - revert Hs; apply timers_ok_same; reflexivity.
  - apply fire_timers_ok, Hs.
Qed.

Lemma run_timers_ok ops : forall s, timers_ok s -> timers_ok (run s ops).
Proof.
  induction ops as [| op ops IH]; intros s Hs; [exact Hs |].
  apply IH, step_timers_ok, Hs.
Qed.

Lemma mount_timers_ok : timers_ok mount.
Proof.
  split; [simpl; lia |]. right. eexists. split; [reflexivity |].
  simpl. split; [reflexivity | lia].
Qed.

Lemma reachable_timers_ok ops : timers_ok (run mount ops).
Proof. apply run_timers_ok, mount_timers_ok. Qed.

(** The one pending timeout fires once it is due: its callback runs, it
    leaves the pending list for good, and it cannot fire again. *)
Lemma fire_due s t :
  timers_ok s -> timers s = [t] -> deadline t <= now s ->
  showControls (fire (tid t) s) =
    (if closure_isPlaying t then false else showControls s) /\
  (forall t', In t' (timers (fire (tid t) s)) -> tid t' <> tid t) /\
  fire (tid t) (fire (tid t) s) = fire (tid t) s.
Proof.
  intros Hs Ht Hdue.
  assert (Hgone : forall t', In t' (timers (fire (tid t) s)) -> tid t' <> tid t).
  { unfold fire. rewrite Ht. simpl. rewrite Nat.eqb_refl.
    destruct (Z.leb_spec (deadline t) (now s)); [| lia]. simpl.
    set (sC := set_timers (controlsTimeoutRef s) [] (nextTimerId s) s).
    assert (HsC : timers_ok sC).
    { destruct Hs as (Hn & _). split; [exact Hn | left; reflexivity]. }
    assert (Hlt : (tid t < nextTimerId s)%nat).
    { destruct Hs as (_ & [Hnil | (t0 & Ht0 & _ & Hid)]); [congruence |].
      rewrite Ht in Ht0. injection Ht0 as <-. lia. }
    unfold commit. destruct (Bool.eqb _ _).
    - unfold timeoutCallback. destruct (closure_isPlaying t); simpl; tauto.
    - assert (HsC' : timers_ok (timeoutCallback t sC)).
      { unfold timeoutCallback. destruct (closure_isPlaying t); [| exact HsC].
        revert HsC. apply timers_ok_same; reflexivity. }
      destruct (reset_leaves_one (isPlaying (timeoutCallback t sC)) _ HsC')
        as (-> & _).
      intros t' [<- | []]. simpl.
      unfold timeoutCallback. destruct (closure_isPlaying t); simpl; lia. }
  split; [| split; [exact Hgone | apply fire_absent, Hgone]].
  unfold fire. rewrite Ht. simpl. rewrite Nat.eqb_refl.
  destruct (Z.leb_spec (deadline t) (now s)); [| lia]. simpl.
  match goal with |- context [commit ?b ?x] =>
    destruct (commit_fields b x) as (_ & _ & _ & _ & -> & _) end.
  unfold timeoutCallback. destruct (closure_isPlaying t); reflexivity.
Qed.

(** C3.  In every reachable state at most one timeout is pending.
    [resetControlsTimeout] cancels the pending one and leaves exactly the
    one it schedules, due 3000 ms after the call.  So after two calls,
    [d] ms apart, one timeout is pending, due 3000 ms after the second
    call: nothing can fire earlier, the timeout of the first call never
    fires, and the timeout of the second call fires once. *)
Theorem one_pending_hide_timer :
  (forall ops, (length (timers (run mount ops)) <= 1)%nat) /\
  (forall ops c,
      let s := run mount ops in
      timers (resetControlsTimeout c s) =
        [{| tid := nextTimerId s; deadline := now s + 3000;
            closure_isPlaying := c |}]) /\
  (forall ops c1 c2 (d : nat),
      let s0 := run mount ops in
      let first := nextTimerId s0 in
      let s1 := step (resetControlsTimeout c1 s0) (Elapse d) in
      let second := nextTimerId s1 in
      let s2 := resetControlsTimeout c2 s1 in
      first <> second /\
      timers s2 =
        [{| tid := second; deadline := now s1 + 3000; closure_isPlaying := c2 |}] /\
      (forall (e : nat) id, (e < 3000)%nat ->
          step (step s2 (Elapse e)) (TimerFires id) = step s2 (Elapse e)) /\
      (forall e : nat,
          step (step s2 (Elapse e)) (TimerFires first) = step s2 (Elapse e)) /\
      (forall e : nat, (3000 <= e)%nat ->
          let s3 := step (step s2 (Elapse e)) (TimerFires second) in
          showControls s3 = (if c2 then false else showControls s2) /\
          (forall t, In t (timers s3) -> tid t <> second) /\
          step s3 (TimerFires second) = s3)).
Proof.
  split; [| split].
  - intros ops. destruct (reachable_timers_ok ops) as (_ & [-> | (t & -> & _)]);
      simpl; lia.
  - intros ops c s. apply reset_leaves_one, reachable_timers_ok.
  - intros ops c1 c2 d s0 first s1 second s2.
    assert (H0 : timers_ok s0) by apply reachable_timers_ok.
    assert (H1 : timers_ok s1).
    { apply step_timers_ok, reset_timers_ok, H0. }
    destruct (reset_leaves_one c1 s0 H0) as (_ & _ & Hnext).
    destruct (reset_leaves_one c2 s1 H1) as (Ht2 & _ & _).
    fold s2 second in Ht2.
    assert (Hsecond : second = S first) by exact Hnext.
    assert (Hnow : now s2 = now s1) by apply reset_fields.
    assert (Hok : forall e : nat, timers_ok (step s2 (Elapse e))).
    { intros e. apply step_timers_ok, reset_timers_ok, H1. }
    clearbody s2 second first s1.
    assert (Hte : forall e : nat, timers (step s2 (Elapse e)) = timers s2)
      by reflexivity.
    assert (Hne : forall e : nat, now (step s2 (Elapse e)) = now s2 + Z.of_nat e)
      by reflexivity.
    split; [lia |]. split; [exact Ht2 |]. split; [| split].
    + intros e id He. apply fire_early.
      rewrite Hte, Hne, Ht2. intros t [<- | []]. simpl. lia.
    + intros e. apply fire_absent.
      rewrite Hte, Ht2. intros t [<- | []]. simpl. lia.
    + intros e He.
      set (t2 := {| tid := second; deadline := now s1 + 3000;
                    closure_isPlaying := c2 |}) in *.
      assert (Hdue : deadline t2 <= now (step s2 (Elapse e))).
      { rewrite Hne. simpl. lia. }
      assert (Hte2 : timers (step s2 (Elapse e)) = [t2]).
      { rewrite Hte. exact Ht2. }
      destruct (fire_due (step s2 (Elapse e)) t2 (Hok e) Hte2 Hdue)
        as (Hshow & Hgone & Honce).
      split; [exact Hshow |]. split; [exact Hgone | exact Honce].
Qed.

(** C3, witness: on the freshly mounted screen, two calls 1000 ms
    apart. *)
Lemma one_pending_hide_timer_witness :
  let s1 := step (resetControlsTimeout false mount) (Elapse 1000) in
  let s2 := resetControlsTimeout true s1 in
  timers s2 = [{| tid := 3; deadline := 4000; closure_isPlaying := true |}] /\
  step (step s2 (Elapse 2999)) (TimerFires 3) = step s2 (Elapse 2999) /\
  showControls (step (step s2 (Elapse 3000)) (TimerFires 3)) = false.
Proof.
  intros s1 s2.
  destruct one_pending_hide_timer as (_ & _ & H).
  destruct (H [] false true 1000%nat) as (_ & Ht & Hearly & _ & Hfire).
  split; [exact Ht |]. split.
  - apply (Hearly 2999%nat 3%nat). lia.
  - destruct (Hfire 3000%nat) as (Hshow & _); [lia | exact Hshow].
Defined.

(** C4, the failing input.  A video is playing with its controls shown;
    the user presses pause.  [togglePlayPause] sends [pauseAsync] and
    re-arms the timer, whose callback captured [isPlaying = true]; the
    engine then reports that playback stopped.  Nothing cancels the
    pending timeout: 3000 ms later it fires and hides the controls while
    playback is not active. *)
Lemma controls_hide_while_paused :
  let playing := Sample.loaded true 5000 (Some 60000) in
  let paused := Sample.loaded false 5000 (Some 60000) in
  exists s,
    run_ui mount [PickVideo (DocumentPicker.Assets [Sample.a_mp4]);
                  PlaybackStatusUpdate 1 playing;
                  TogglePlayPause;
                  PlaybackStatusUpdate 1 paused;
                  Elapse 3000] = Some s /\
    commands s = [PauseAsync] /\
    isPlaying s = false /\
    showControls s = true /\
    timers s = [{| tid := 2; deadline := 3000; closure_isPlaying := true |}] /\
    offered s (TimerFires 2) = true /\
    isPlaying (step s (TimerFires 2)) = false /\
    showControls (step s (TimerFires 2)) = false.
Proof. eexists. repeat split. Qed.

End Timers.

(** ** The library catalog (C9) *)

Section Catalog.

Import Library.

Lemma append_nil_l (s : string) : "" +:+ s = s.
Proof. reflexivity. Qed.

Lemma append_cons (c : Ascii.ascii) (a s : string) :
  String c a +:+ s = String c (a +:+ s).
Proof. reflexivity. Qed.

Lemma length_append (a s : string) :
  String.length (a +:+ s) = (String.length a + String.length s)%nat.
Proof.
  induction a as [| c a IH]; [reflexivity |].
  rewrite append_cons. simpl. rewrite IH. reflexivity.
Qed.

(** Two strings with suffixes of the same length are equal only if the
    suffixes and what precedes them are. *)
Lemma append_inv_suffix (a : string) : forall b s1 s2,
  String.length s1 = String.length s2 ->
  a +:+ s1 = b +:+ s2 -> a = b /\ s1 = s2.
Proof.
  induction a as [| x a IH]; intros [| y b] s1 s2 Hlen Heq.
  - split; [reflexivity | exact Heq].
  - apply (f_equal String.length) in Heq.
    rewrite append_nil_l, length_append in Heq. simpl in Heq. lia.
  - apply (f_equal String.length) in Heq.
    rewrite append_nil_l, length_append in Heq. simpl in Heq. lia.
  - rewrite !append_cons in Heq. injection Heq as -> Heq.
    destruct (IH b s1 s2 Hlen Heq) as [-> ->]. split; reflexivity.
Qed.

Lemma filter_all_true {A} (f : A -> bool) (l : list A) :
  (forall x, In x l -> f x = true) -> List.filter f l = l.
Proof.
  induction l as [| x l IH]; intros Hall; [reflexivity |].
  simpl. rewrite (Hall x (or_introl eq_refl)). f_equal.
  apply IH. intros y Hy. apply Hall. right. exact Hy.
Qed.

Lemma filter_is_sublist {A} (f : A -> bool) (l : list A) :
  sublist (List.filter f l) l.
Proof.
  induction l as [| x l IH]; simpl; [constructor |].
  destruct (f x); constructor; exact IH.
Qed.

(** The scenario on a catalog holding exactly the entries [fa] (a video
    named a.mp4) and [fb] (an audio named b.mp3), with distinct ids. *)
Lemma scenario_on_two_entries fa fb sel :
  name fa = "a.mp4" -> type fa = video ->
  name fb = "b.mp3" -> type fb = audio ->
  id fa <> id fb ->
  let s := {| mediaFiles := [fa; fb]; selectedType := sel |} in
  map name (filteredFiles (setSelectedType (only video) s)) = ["a.mp4"] /\
  countOf audio s = 1%nat /\
  map name (filteredFiles (setSelectedType all (removeMediaFile (id fa) true s)))
    = ["b.mp3"].
Proof.
  intros Hna Hta Hnb Htb Hid s.
  unfold filteredFiles, countOf, removeMediaFile. simpl.
  rewrite Hta, Htb. simpl.
  rewrite (bool_decide_eq_true_2 (id fa = id fa) eq_refl).
  rewrite (bool_decide_eq_false_2 (id fb = id fa)) by congruence.
  simpl. rewrite Hna, Hnb. auto.
Qed.

(** C9.  Two files, a.mp4 (a video) and b.mp3 (an audio), are added to
    the empty catalog, in one pick or in two picks made at different
    times: the catalog holds them in that order; the video filter shows
    exactly a.mp4; the audio count is 1; after removing the entry of a.mp4
    by its id, the unfiltered view shows exactly b.mp3.  Removing an id
    that no entry has, or cancelling the removal, changes nothing.  Adding
    appends at the end in the picker's order, and both the filtered view
    and a removal keep the remaining entries in their order. *)
Theorem catalog_scenario_and_insertion_order :
  (forall A B dateNow newDate,
      DocumentPicker.name A = "a.mp4" -> typeOf (DocumentPicker.mimeType A) = video ->
      DocumentPicker.name B = "b.mp3" -> typeOf (DocumentPicker.mimeType B) = audio ->
      let s := addMediaFile (DocumentPicker.Assets [A; B]) dateNow newDate mount in
      exists fa fb,
        mediaFiles s = [fa; fb] /\ name fa = "a.mp4" /\ name fb = "b.mp3" /\
        map name (filteredFiles (setSelectedType (only video) s)) = ["a.mp4"] /\
        countOf audio s = 1%nat /\
        map name (filteredFiles
                    (setSelectedType all (removeMediaFile (id fa) true s)))
          = ["b.mp3"]) /\
  (forall A B dateNow1 newDate1 dateNow2 newDate2,
      DocumentPicker.name A = "a.mp4" -> typeOf (DocumentPicker.mimeType A) = video ->
      DocumentPicker.name B = "b.mp3" -> typeOf (DocumentPicker.mimeType B) = audio ->
      dateNow1 0%nat <> dateNow2 0%nat ->
      let s := addMediaFile (DocumentPicker.Assets [B]) dateNow2 newDate2
                 (addMediaFile (DocumentPicker.Assets [A]) dateNow1 newDate1 mount) in
      exists fa fb,
        mediaFiles s = [fa; fb] /\ name fa = "a.mp4" /\ name fb = "b.mp3" /\
        map name (filteredFiles (setSelectedType (only video) s)) = ["a.mp4"] /\
        countOf audio s = 1%nat /\
        map name (filteredFiles
                    (setSelectedType all (removeMediaFile (id fa) true s)))
          = ["b.mp3"]) /\
  (forall s target,
      (forall f, In f (mediaFiles s) -> id f <> target) ->
      removeMediaFile target true s = s) /\
  (forall s target, removeMediaFile target false s = s) /\
  (forall s assets dateNow newDate,
      mediaFiles (addMediaFile (DocumentPicker.Assets assets) dateNow newDate s) =
        mediaFiles s ++ imap (toMediaFile dateNow newDate) assets) /\
  (forall s, sublist (filteredFiles s) (mediaFiles s)) /\
  (forall s target confirmed,
      sublist (mediaFiles (removeMediaFile target confirmed s)) (mediaFiles s)).
Proof.
  split; [| split; [| split; [| split; [| split; [| split]]]]].
  - intros A B dateNow newDate HnA HtA HnB HtB s.
    exists (toMediaFile dateNow newDate 0 A), (toMediaFile dateNow newDate 1 B).
    split; [reflexivity |].
    assert (Hna : name (toMediaFile dateNow newDate 0 A) = "a.mp4")
      by (simpl; rewrite HnA; reflexivity).
    assert (Hnb : name (toMediaFile dateNow newDate 1 B) = "b.mp3")
      by (simpl; rewrite HnB; reflexivity).
    split; [exact Hna |]. split; [exact Hnb |].
    apply (scenario_on_two_entries _ _ all Hna HtA Hnb HtB).
    simpl. intros Heq.
    apply (append_inv_suffix _ _ "-0" "-1" eq_refl) in Heq as [_ Heq].
    discriminate Heq.
  - intros A B dateNow1 newDate1 dateNow2 newDate2 HnA HtA HnB HtB Hdiff s.
    exists (toMediaFile dateNow1 newDate1 0 A), (toMediaFile dateNow2 newDate2 0 B).
    split; [reflexivity |].
    assert (Hna : name (toMediaFile dateNow1 newDate1 0 A) = "a.mp4")
      by (simpl; rewrite HnA; reflexivity).
    assert (Hnb : name (toMediaFile dateNow2 newDate2 0 B) = "b.mp3")
      by (simpl; rewrite HnB; reflexivity).
    split; [exact Hna |]. split; [exact Hnb |].
    apply (scenario_on_two_entries _ _ all Hna HtA Hnb HtB).
    simpl. intros Heq.
    apply (append_inv_suffix _ _ "-0" "-0" eq_refl) in Heq as [Heq _].
    apply (inj pretty) in Heq. contradiction.
  - intros [files sel] target Habs. unfold removeMediaFile. simpl. f_equal.
    apply filter_all_true. intros f Hf.
    rewrite (bool_decide_eq_false_2 _ (Habs f Hf)). reflexivity.
  - reflexivity.
  - reflexivity.
  - intros s. apply filter_is_sublist.
  - intros s target [|]; simpl; [apply filter_is_sublist | reflexivity].
Qed.

(** C9, witness: the two sample files, picked together at one instant,
    and picked one after the other a minute apart. *)
Lemma catalog_scenario_witness :
  let clock : nat -> Z := fun _ => 1700000000000 in
  let later : nat -> Z := fun _ => 1700000060000 in
  let s := addMediaFile (DocumentPicker.Assets [Sample.a_mp4; Sample.b_mp3])
             clock clock mount in
  let s' := addMediaFile (DocumentPicker.Assets [Sample.b_mp3]) later later
              (addMediaFile (DocumentPicker.Assets [Sample.a_mp4]) clock clock mount) in
  (exists fa fb,
      mediaFiles s = [fa; fb] /\ name fa = "a.mp4" /\ name fb = "b.mp3" /\
      map name (filteredFiles (setSelectedType (only video) s)) = ["a.mp4"] /\
      countOf audio s = 1%nat /\
      map name (filteredFiles (setSelectedType all (removeMediaFile (id fa) true s)))
        = ["b.mp3"]) /\
  (exists fa fb,
      mediaFiles s' = [fa; fb] /\ name fa = "a.mp4" /\ name fb = "b.mp3" /\
      map name (filteredFiles (setSelectedType (only video) s')) = ["a.mp4"] /\
      countOf audio s' = 1%nat /\
      map name (filteredFiles (setSelectedType all (removeMediaFile (id fa) true s')))
        = ["b.mp3"]) /\
  removeMediaFile "no-such-id" true s = s.
Proof.
  intros clock later s s'.
  destruct catalog_scenario_and_insertion_order as (Hone & Htwo & Habsent & _).
  split; [| split].
  - apply (Hone Sample.a_mp4 Sample.b_mp3 clock clock); reflexivity.
  - apply (Htwo Sample.a_mp4 Sample.b_mp3 clock clock later later);
      try reflexivity. discriminate.
  - apply Habsent. intros f [<- | [<- | []]]; vm_compute; discriminate.
Defined.

End Catalog.

(** ** The audio screen's progress display (C10) *)

Section AudioProgress.

Lemma audio_step_position s op : Audio.position (Audio.step s op) = Audio.position s.
Proof.
  destruct op as [result created | engine | origin ev]; simpl.
  - unfold Audio.pickAudio, Audio.soundEffectCleanup, Audio.unloadCurrent.
    repeat case_match; reflexivity.
  - unfold Audio.togglePlayPause. repeat case_match; reflexivity.
  - reflexivity.
Qed.

Lemma audio_run_position ops : forall s,
  Audio.position (Audio.run s ops) = Audio.position s.
Proof.
  induction ops as [| op ops IH]; intros s; [reflexivity |].
  simpl. rewrite IH. apply audio_step_position.
Qed.

Lemma audio_pick_duration s asset rest st :
  AV.isLoaded st = Some true ->
  Audio.duration (Audio.pickAudio (DocumentPicker.Assets (asset :: rest)) (Some st) s)
    = Js.num_or (AV.durationMillis st) 0.
Proof.
  intros Hl. unfold Audio.pickAudio, Audio.soundEffectCleanup, Audio.unloadCurrent.
  rewrite Hl. simpl. repeat case_match; reflexivity.
Qed.

Lemma audio_step_duration s op :
  Audio.duration (Audio.step s op) = durationAfter (Audio.duration s) op.
Proof.
  destruct op as [result created | engine | origin ev]; simpl.
  - unfold Audio.pickAudio, Audio.soundEffectCleanup, Audio.unloadCurrent.
    repeat case_match; reflexivity.
  - unfold Audio.togglePlayPause. repeat case_match; reflexivity.
  - reflexivity.
Qed.

Lemma audio_run_duration ops : forall s,
  Audio.duration (Audio.run s ops) = fold_left durationAfter ops (Audio.duration s).
Proof.
  induction ops as [| op ops IH]; intros s; [reflexivity |].
  simpl. rewrite IH, audio_step_duration. reflexivity.
Qed.

(** C10, counterexample.  A three-minute track is picked; then a.mp4 is
    picked while the engine reports its sound as not loaded yet; later the
    engine reports the new sound loaded, four minutes long.  The screen
    shows a.mp4 with the previous track's 3:00.  And a track whose loaded
    status carries no duration at the pick is shown with 0:00, whatever the
    engine reports later. *)
Lemma duration_label_is_not_the_track_duration :
  let first := Sample.loaded false 0 (Some 180000) in
  let notLoaded := {| AV.isLoaded := Some false; AV.isPlaying := None;
                      AV.positionMillis := None; AV.durationMillis := None;
                      AV.rate := None |} in
  let later := Sample.loaded false 0 (Some 240000) in
  (let s := Audio.run Audio.mount
              [Audio.PickAudio (DocumentPicker.Assets [Sample.b_mp3]) (Some first);
               Audio.PickAudio (DocumentPicker.Assets [Sample.a_mp4]) (Some notLoaded);
               Audio.TogglePlayPause later] in
   Audio.trackName s = "a.mp4" /\
   Audio.commands s =
     [Audio.UnloadAsync 0; Audio.UnloadAsync 0; Audio.PlayAsync 1] /\
   AV.durationMillis later = Some 240000 /\
   formatTime 240000 = Some "4:00" /\
   Audio.durationLabel s = Some "3:00") /\
  (let s := Audio.run Audio.mount
              [Audio.PickAudio (DocumentPicker.Assets [Sample.a_mp4])
                 (Some (Sample.loaded false 0 None));
               Audio.TogglePlayPause later] in
   Audio.trackName s = "a.mp4" /\
   Audio.durationLabel s = Some "0:00" /\
   Audio.durationLabel s <> formatTime 240000).
Proof.
  intros first notLoaded later. split.
  - repeat split.
  - split; [reflexivity |]. split; [reflexivity | discriminate].
Qed.

(** C10, amended.  On the audio screen [position] starts at 0 and no
    operation changes it: neither a pick, nor play/pause, nor any status
    event of the engine.  So in every reachable state the progress bar has
    width 0 and the elapsed-time label reads 0:00.  The duration label shows
    the duration stored by the most recent pick whose new sound the engine
    reported as loaded ([durationMillis || 0]; 0 before any such pick):
    right after such a pick it is that sound's reported duration, and no
    other operation refreshes it. *)
Theorem audio_position_is_never_updated :
  (forall s op, Audio.position (Audio.step s op) = Audio.position s) /\
  (forall ops,
      let s := Audio.run Audio.mount ops in
      Audio.position s = 0 /\
      (Audio.progressWidth s == 0)%Q /\
      Audio.elapsedLabel s = Some "0:00") /\
  (forall s asset rest st,
      AV.isLoaded st = Some true ->
      Audio.durationLabel
        (Audio.step s (Audio.PickAudio (DocumentPicker.Assets (asset :: rest)) (Some st)))
        = formatTime (Js.num_or (AV.durationMillis st) 0)) /\
  (forall s op,
      Audio.duration (Audio.step s op) = durationAfter (Audio.duration s) op) /\
  (forall ops,
      let s := Audio.run Audio.mount ops in
      Audio.duration s = lastLoadedDuration ops /\
      Audio.durationLabel s = formatTime (lastLoadedDuration ops)).
Proof.
  split; [exact audio_step_position |]. split; [| split; [| split]].
  - intros ops s.
    assert (Hp : Audio.position s = 0) by apply audio_run_position.
    split; [exact Hp |]. split.
    + unfold Audio.progressWidth. rewrite Hp.
      destruct (0 <? Audio.duration s); [| reflexivity].
      change (inject_Z 0) with 0%Q. unfold Qdiv. rewrite !Qmult_0_l. reflexivity.
    + unfold Audio.elapsedLabel. rewrite Hp. reflexivity.
  - intros s asset rest st Hl. unfold Audio.durationLabel. simpl.
    rewrite (audio_pick_duration s asset rest st Hl). reflexivity.
  - exact audio_step_duration.
  - intros ops s.
    assert (Hd : Audio.duration s = lastLoadedDuration ops)
      by apply (audio_run_duration ops Audio.mount).
    split; [exact Hd |]. unfold Audio.durationLabel. rewrite Hd. reflexivity.
Qed.

(** C10, witness: a three-minute track is picked and played. *)
Lemma audio_position_witness :
  let engine := Sample.loaded false 0 (Some 180000) in
  let s := Audio.run Audio.mount
             [Audio.PickAudio (DocumentPicker.Assets [Sample.b_mp3]) (Some engine);
              Audio.TogglePlayPause engine;
              Audio.EngineStatusEvent 0 (Sample.loaded true 42000 (Some 180000))] in
  Audio.elapsedLabel s = Some "0:00" /\ Audio.durationLabel s = Some "3:00".
Proof.
  intros engine s.
  destruct audio_position_is_never_updated as (_ & Hzero & Hdur & _).
  split.
  - apply (Hzero [Audio.PickAudio (DocumentPicker.Assets [Sample.b_mp3]) (Some engine);
                  Audio.TogglePlayPause engine;
                  Audio.EngineStatusEvent 0 (Sample.loaded true 42000 (Some 180000))]).
  - change (Audio.durationLabel s)
      with (Audio.durationLabel
              (Audio.step Audio.mount
                 (Audio.PickAudio (DocumentPicker.Assets [Sample.b_mp3]) (Some engine)))).
    rewrite (Hdur Audio.mount Sample.b_mp3 [] engine eq_refl). reflexivity.
Defined.

End AudioProgress.

(** * Further properties of the screens *)

(** ** Catalog entries and their ids *)

Section CatalogIds.

Import Library.

Lemma dashFree_pretty_N_go (x : N) : forall s,
  dashFree s = true -> dashFree (pretty_N_go x s) = true.
Proof.
  induction (N.lt_wf_0 x) as [x _ IH]. intros s Hs.
  destruct (decide (0 < x)%N) as [Hx | Hx].
  - rewrite pretty_N_go_step by exact Hx. apply IH.
    + apply N.div_lt; lia.
    + simpl. rewrite Hs, andb_true_r.
      unfold pretty_N_char. repeat case_match; reflexivity.
  - replace x with 0%N by lia. rewrite pretty_N_go_0. exact Hs.
Qed.

Lemma dashFree_pretty_nat (n : nat) : dashFree (pretty n) = true.
Proof.
  unfold pretty, pretty_nat, pretty, pretty_N.
  destruct (decide (N.of_nat n = 0%N)); [reflexivity |].
  apply dashFree_pretty_N_go. reflexivity.
Qed.

Lemma dashFree_after_dash (a t : string) : dashFree (a +:+ "-" +:+ t) = false.
Proof.
  induction a as [| c a IH]; [reflexivity |].
  rewrite append_cons. simpl. rewrite IH. apply andb_false_r.
Qed.

Lemma afterLastDash_append (a t : string) :
  dashFree t = true -> afterLastDash (a +:+ "-" +:+ t) = t.
Proof.
  intros Ht. induction a as [| c a IH].
  - change ("" +:+ "-" +:+ t) with (String dash t). simpl. rewrite Ht. reflexivity.
  - rewrite append_cons. simpl. rewrite dashFree_after_dash. exact IH.
Qed.

(** Two strings of the form [a-t], with [t] free of dashes, are equal only
    if both parts are. *)
Lemma dashed_inj (a b t u : string) :
  dashFree t = true -> dashFree u = true ->
  a +:+ "-" +:+ t = b +:+ "-" +:+ u -> a = b /\ t = u.
Proof.
  intros Ht Hu Heq.
  assert (Htu : t = u).
  { apply (f_equal afterLastDash) in Heq.
    rewrite !afterLastDash_append in Heq by assumption. exact Heq. }
  subst u. split; [| reflexivity].
  apply (append_inv_suffix a b ("-" +:+ t) ("-" +:+ t) eq_refl Heq).
Qed.

Lemma toMediaFile_id_inj dateNow newDate dateNow' newDate' i j A B :
  id (toMediaFile dateNow newDate i A) = id (toMediaFile dateNow' newDate' j B)
  <-> dateNow i = dateNow' j /\ i = j.
Proof.
  simpl. split.
  - intros Heq.
    apply dashed_inj in Heq as [Ht Hi]; try apply dashFree_pretty_nat.
    split; [apply (inj pretty), Ht | apply (inj pretty), Hi].
  - intros [-> ->]. reflexivity.
Qed.

(** X1.  The id of an entry determines the clock reading and the index it
    was built from: two entries get the same id exactly when [Date.now()]
    returned the same value for both and they sat at the same index of
    their picks. *)
Theorem entry_id_determines_clock_and_index :
  forall dateNow newDate dateNow' newDate' i j A B,
    id (toMediaFile dateNow newDate i A) = id (toMediaFile dateNow' newDate' j B)
    <-> dateNow i = dateNow' j /\ i = j.
Proof. exact toMediaFile_id_inj. Qed.

(** X2.  Whatever the clock does during a pick, the entries built from one
    pick have pairwise distinct ids. *)
Theorem ids_of_one_pick_are_distinct :
  forall dateNow newDate assets,
    NoDup (map id (imap (toMediaFile dateNow newDate) assets)).
Proof.
  intros dateNow newDate assets. apply NoDup_alt. intros i j x Hi Hj.
  rewrite list_lookup_fmap, list_lookup_imap in Hi, Hj.
  destruct (assets !! i) as [A |]; [| discriminate].
  destruct (assets !! j) as [B |]; [| discriminate].
  injection Hi as Hi. injection Hj as Hj.
  apply (proj1 (toMediaFile_id_inj dateNow newDate dateNow newDate i j A B)).
  transitivity x; [exact Hi | symmetry; exact Hj].
Qed.

(** X3.  Two picks of one file each, made while [Date.now()] reads the
    same value, give both entries the same id; removing the first entry by
    its id then removes the second one as well and leaves the catalog
    empty. *)
Theorem same_instant_picks_share_an_id :
  forall A B dateNow newDate dateNow' newDate',
    dateNow 0%nat = dateNow' 0%nat ->
    let s := addMediaFile (DocumentPicker.Assets [B]) dateNow' newDate'
               (addMediaFile (DocumentPicker.Assets [A]) dateNow newDate mount) in
    exists fa fb,
      mediaFiles s = [fa; fb] /\ id fa = id fb /\
      mediaFiles (removeMediaFile (id fa) true s) = [].
Proof.
  intros A B dateNow newDate dateNow' newDate' Hsame s.
  exists (toMediaFile dateNow newDate 0 A), (toMediaFile dateNow' newDate' 0 B).
  assert (Hid : id (toMediaFile dateNow newDate 0 A) =
                id (toMediaFile dateNow' newDate' 0 B)).
  { apply toMediaFile_id_inj. split; [exact Hsame | reflexivity]. }
  split; [reflexivity |]. split; [exact Hid |].
  unfold removeMediaFile. cbn [mediaFiles s addMediaFile mount imap app List.filter].
  rewrite (bool_decide_eq_true_2 _ eq_refl).
  rewrite (bool_decide_eq_true_2 _ (eq_sym Hid)). reflexivity.
Qed.

(** X3, witness: the two sample files picked at one clock reading. *)
Lemma same_instant_picks_witness :
  let clock : nat -> Z := fun _ => 1700000000000 in
  let s := addMediaFile (DocumentPicker.Assets [Sample.b_mp3]) clock clock
             (addMediaFile (DocumentPicker.Assets [Sample.a_mp4]) clock clock mount) in
  exists fa fb,
    mediaFiles s = [fa; fb] /\ id fa = id fb /\
    mediaFiles (removeMediaFile (id fa) true s) = [].
Proof.
  intros clock s.
  apply (same_instant_picks_share_an_id Sample.a_mp4 Sample.b_mp3 clock clock clock clock).
  reflexivity.
Defined.

End CatalogIds.

(** ** The catalog's views, counts and removals *)

Section CatalogViews.

Import Library.

Lemma count_split (files : list MediaFile) :
  (length (List.filter (fun f => bool_decide (type f = video)) files) +
   length (List.filter (fun f => bool_decide (type f = audio)) files))%nat
  = length files.
Proof.
  induction files as [| f files IH]; [reflexivity |].
  simpl. destruct (type f); simpl; lia.
Qed.

(** X4.  In every state of the library screen the count shown on a tab
    is the number of rows that tab lists, the All tab lists the whole
    catalog, the video and audio counts add up to the size of the catalog,
    and the stats bar is hidden exactly when both counts are zero. *)
Theorem tab_counts_match_the_lists :
  forall s,
    (forall t, length (filteredFiles (setSelectedType (only t) s)) = countOf t s) /\
    filteredFiles (setSelectedType all s) = mediaFiles s /\
    (countOf video s + countOf audio s)%nat = length (mediaFiles s) /\
    (statsBarShown s = false <-> countOf video s = 0%nat /\ countOf audio s = 0%nat).
Proof.
  intros s. split; [reflexivity |]. split; [| split].
  - unfold filteredFiles. simpl. apply filter_all_true. reflexivity.
  - apply count_split.
  - unfold statsBarShown, countOf. pose proof (count_split (mediaFiles s)) as H.
    destruct (Nat.ltb_spec 0 (length (mediaFiles s))); split; intros;
      try lia; try discriminate; try reflexivity.
Qed.

(** X5.  A confirmed removal keeps exactly the entries whose id is not the
    one removed, so afterwards no entry has that id; removing the same id
    again changes nothing more, and two removals can be made in either
    order. *)
Theorem removal_keeps_exactly_the_other_ids :
  forall s target,
    (forall f, In f (mediaFiles (removeMediaFile target true s)) <->
               In f (mediaFiles s) /\ id f <> target) /\
    removeMediaFile target true (removeMediaFile target true s)
      = removeMediaFile target true s /\
    (forall other,
        removeMediaFile target true (removeMediaFile other true s)
        = removeMediaFile other true (removeMediaFile target true s)).
Proof.
  intros [files sel] target. unfold removeMediaFile. simpl.
  split; [| split].
  - intros f. rewrite filter_In.
    destruct (decide (id f = target)) as [He | Hn].
    + rewrite (bool_decide_eq_true_2 _ He). simpl. split; [intros [_ H] | intros [_ H]];
        [discriminate | contradiction].
    + rewrite (bool_decide_eq_false_2 _ Hn). simpl. tauto.
  - f_equal. apply filter_all_true. intros f Hf.
    apply filter_In in Hf as [_ Hf]. exact Hf.
  - intros other. f_equal.
    induction files as [| f files IH]; [reflexivity |].
    simpl.
    destruct (bool_decide (id f = other)) eqn:Eo,
             (bool_decide (id f = target)) eqn:Et;
      simpl; rewrite ?Eo, ?Et; simpl; rewrite ?IH; reflexivity.
Qed.

Lemma prefix_iff_append (p : string) : forall s,
  String.prefix p s = true <-> exists rest, s = p +:+ rest.
Proof.
  induction p as [| a p IH]; intros s.
  - split; [intros _; exists s; reflexivity | intros _; destruct s; reflexivity].
  - destruct s as [| b s]; simpl.
    + split; [discriminate | intros [rest H]; rewrite append_cons in H; discriminate].
    + destruct (Ascii.ascii_dec a b) as [-> | Hne].
      * rewrite IH. split; intros [rest H]; exists rest.
        -- rewrite append_cons, H. reflexivity.
        -- rewrite append_cons in H. injection H as H. exact H.
      * split; [discriminate |].
        intros [rest H]. rewrite append_cons in H. injection H as H1 _.
        congruence.
Qed.

(** X6.  An asset is filed as a video exactly when it has a mime type
    that starts with [video/]; with any other mime type, or with none, it
    is filed as audio. *)
Theorem entry_type_follows_mime_prefix :
  forall A dateNow newDate i,
    (type (toMediaFile dateNow newDate i A) = video <->
     exists rest, DocumentPicker.mimeType A = Some ("video/" +:+ rest)) /\
    (DocumentPicker.mimeType A = None ->
     type (toMediaFile dateNow newDate i A) = audio).
Proof.
  intros A dateNow newDate i. simpl. unfold typeOf.
  destruct (DocumentPicker.mimeType A) as [m |].
  - split; [| discriminate].
    destruct (String.prefix "video/" m) eqn:Hp.
    + apply prefix_iff_append in Hp as [rest ->].
      split; [intros _; exists rest; reflexivity | reflexivity].
    + split; [discriminate |].
      intros [rest H]. injection H as ->.
      assert (Ht : String.prefix "video/" ("video/" +:+ rest) = true)
        by (apply prefix_iff_append; exists rest; reflexivity).
      congruence.
  - split; [| reflexivity]. split; [discriminate | intros [rest H]; discriminate].
Qed.

(** X6, witness: an asset the picker returned without a mime type. *)
Lemma entry_type_witness :
  let A := {| DocumentPicker.uri := "file:///cache/x"; DocumentPicker.name := "x";
              DocumentPicker.mimeType := None; DocumentPicker.size := None |} in
  type (toMediaFile (fun _ => 0) (fun _ => 0) 0 A) = audio.
Proof.
  intros A.
  apply (proj2 (entry_type_follows_mime_prefix A (fun _ => 0) (fun _ => 0) 0%nat)).
  reflexivity.
Defined.

Lemma str_or_nonempty (s d : string) : d <> "" -> Js.str_or s d <> "".
Proof. intros Hd. unfold Js.str_or. destruct (decide (s = "")); assumption. Qed.

Lemma library_step_names s op :
  Forall (fun f => name f <> "") (mediaFiles s) ->
  Forall (fun f => name f <> "") (mediaFiles (step s op)).
Proof.
  intros Hs. destruct op as [result dateNow newDate | target confirmed | sel]; simpl.
  - destruct result as [| assets |]; try exact Hs. simpl.
    apply Forall_app. split; [exact Hs |].
    apply List.Forall_forall. intros f Hf.
    apply (proj2 (list_elem_of_In _ _)) in Hf.
    apply (proj1 (list_elem_of_lookup _ _)) in Hf as [i Hf].
    rewrite list_lookup_imap in Hf.
    destruct (assets !! i) as [A |]; [| discriminate].
    injection Hf as <-. simpl. apply str_or_nonempty. discriminate.
  - destruct confirmed; [| exact Hs]. simpl.
    apply List.Forall_forall. intros f Hf. apply filter_In in Hf as [Hf _].
    revert f Hf. apply List.Forall_forall. exact Hs.
  - exact Hs.
Qed.

(** X7.  However the library screen is used, every entry of the catalog
    has a non-empty name: a file the picker reports without a name is
    listed as Unknown. *)
Theorem catalog_names_are_never_empty :
  (forall ops, Forall (fun f => name f <> "") (mediaFiles (run mount ops))) /\
  (forall A dateNow newDate i,
      DocumentPicker.name A = "" ->
      name (toMediaFile dateNow newDate i A) = "Unknown").
Proof.
  split.
  - intros ops.
    assert (H : forall s, Forall (fun f => name f <> "") (mediaFiles s) ->
                          Forall (fun f => name f <> "") (mediaFiles (run s ops))).
    { induction ops as [| op ops IH]; intros s Hs; [exact Hs |].
      apply IH, library_step_names, Hs. }
    apply H. constructor.
  - intros A dateNow newDate i HA. simpl. rewrite HA. reflexivity.
Qed.

(** X7, witness: a nameless asset. *)
Lemma catalog_names_witness :
  let A := {| DocumentPicker.uri := "file:///cache/x"; DocumentPicker.name := "";
              DocumentPicker.mimeType := None; DocumentPicker.size := None |} in
  name (toMediaFile (fun _ => 0) (fun _ => 0) 0 A) = "Unknown".
Proof.
  intros A.
  apply (proj2 catalog_names_are_never_empty A (fun _ => 0) (fun _ => 0) 0%nat).
  reflexivity.
Defined.

End CatalogViews.

(** ** The settings switches *)

Section SettingsSwitches.

Import Settings.

(** The values the six switches show, in rendering order. *)
Lemma switch_values settings :
  map switchValue (items settings) =
    [settings !! "autoPlay"; settings !! "backgroundPlayback";
     settings !! "autoQualityAdjust"; settings !! "hapticFeedback";
     settings !! "keepScreenOn"; settings !! "hardwareAcceleration"; None; None].
Proof. reflexivity. Qed.

(** X8.  Every switch of the settings screen writes the setting it shows:
    after a switch is set to [v], the item with that id shows [v], every
    other item shows what it showed before, and the items keep their places
    and ids.  Item ids are pairwise distinct, and exactly the toggle items
    carry a switch and have their row disabled. *)
Theorem switch_writes_the_setting_it_shows :
  (forall settings item write v,
      In item (items settings) -> onToggle item = Some write ->
      forall n before after,
        items settings !! n = Some before ->
        items (write v settings) !! n = Some after ->
        id after = id before /\
        (id before = id item -> switchValue after = Some v) /\
        (id before <> id item -> switchValue after = switchValue before)) /\
  (forall settings, NoDup (map id (items settings))) /\
  (forall settings item, In item (items settings) ->
      (is_Some (onToggle item) <-> type item = toggle) /\
      (rowDisabled item = true <-> type item = toggle)).
Proof.
  split; [| split].
  - intros settings item write v Hitem Hwrite n before after Hb Ha.
    simpl in Hitem.
    decompose [or] Hitem; clear Hitem; try contradiction; subst item;
      simpl in Hwrite; try discriminate; injection Hwrite as <-;
      do 8 (destruct n as [| n];
            [ injection Hb as <-; injection Ha as <-;
              unfold updateSetting, switchValue; simpl;
              (split; [reflexivity |]); split; intros Hid;
              first [ discriminate Hid
                    | exfalso; apply Hid; reflexivity
                    | rewrite lookup_insert_eq; reflexivity
                    | rewrite lookup_insert_ne by discriminate; reflexivity
                    | reflexivity ]
            | ]);
      discriminate Hb.
  - intros settings. simpl.
    repeat (apply NoDup_cons_2; [rewrite list_elem_of_In; simpl; intuition discriminate |]).
    apply NoDup_nil_2.
  - intros settings item Hitem. simpl in Hitem.
    decompose [or] Hitem; clear Hitem; try contradiction; subst item; simpl;
      (split; split; try reflexivity; try discriminate; eauto;
       intros [x Hx]; discriminate).
Qed.

(** X8, witness: the Keep Screen On switch, off at first, is turned on. *)
Lemma switch_writes_witness :
  exists after,
    items (updateSetting "keepScreenOn" true initial) !! 4%nat = Some after /\
    id after = "keepScreenOn" /\ switchValue after = Some true.
Proof.
  set (item := {| id := "keepScreenOn"; title := "Keep Screen On";
                  subtitle := Some "Prevent screen from turning off during playback";
                  type := toggle; value := initial !! "keepScreenOn";
                  onToggle := Some (updateSetting "keepScreenOn") |}).
  assert (Hin : In item (items initial)) by (simpl; tauto).
  eexists. split; [reflexivity |].
  destruct (proj1 switch_writes_the_setting_it_shows initial item
              (updateSetting "keepScreenOn") true Hin eq_refl
              4%nat item _ eq_refl eq_refl) as (Hid & Hv & _).
  split; [exact Hid | exact (Hv eq_refl)].
Defined.

(** X9.  [updateSetting] with a key that no switch reads adds that key to
    the settings object and leaves every switch as it was. *)
Theorem unknown_key_changes_no_switch :
  forall settings key v,
    ~ In key ["autoPlay"; "backgroundPlayback"; "autoQualityAdjust";
              "hapticFeedback"; "keepScreenOn"; "hardwareAcceleration"] ->
    map switchValue (items (updateSetting key v settings))
      = map switchValue (items settings) /\
    updateSetting key v settings !! key = Some v.
Proof.
  intros settings key v Hkey. split.
  - rewrite !switch_values. unfold updateSetting.
    rewrite !lookup_insert_ne; [reflexivity | ..];
      intros ->; apply Hkey; simpl; tauto.
  - apply lookup_insert_eq.
Qed.

(** X9, witness: the item id [autoQuality] is not the key its switch
    reads. *)
Lemma unknown_key_witness :
  map switchValue (items (updateSetting "autoQuality" false initial))
    = map switchValue (items initial).
Proof.
  apply (unknown_key_changes_no_switch initial "autoQuality" false).
  simpl. intuition discriminate.
Defined.

End SettingsSwitches.

(** ** What the video screen sends to the engine *)

Section PlayerCommands.

Import Player.

Lemma tap_fields s :
  status (handleVideoTap s) = status s /\
  isPlaying (handleVideoTap s) = isPlaying s /\
  currentSpeed (handleVideoTap s) = currentSpeed s /\
  videoUri (handleVideoTap s) = videoUri s /\
  showControls (handleVideoTap s) = negb (showControls s) /\
  commands (handleVideoTap s) = commands s /\
  now (handleVideoTap s) = now s.
Proof.
  unfold handleVideoTap.
  match goal with |- context [commit ?b ?x] =>
    destruct (commit_fields b x) as (-> & -> & -> & -> & -> & -> & ->) end.
  destruct (negb (showControls s)) eqn:E; [| simpl; auto 10].
  match goal with |- context [resetControlsTimeout ?c ?x] =>
    destruct (reset_fields c x) as (-> & -> & -> & -> & -> & -> & ->) end.
  simpl. auto 10.
Qed.

Lemma fire_fields id s :
  status (fire id s) = status s /\
  isPlaying (fire id s) = isPlaying s /\
  currentSpeed (fire id s) = currentSpeed s /\
  videoUri (fire id s) = videoUri s /\
  commands (fire id s) = commands s /\
  now (fire id s) = now s.
Proof.
  unfold fire. destruct (find _ _) as [t |]; [| tauto].
  destruct (_ <=? _); [| tauto].
  match goal with |- context [commit ?b ?x] =>
    destruct (commit_fields b x) as (-> & -> & -> & -> & _ & -> & ->) end.
  unfold timeoutCallback. destruct (closure_isPlaying t); simpl; tauto.
Qed.

Lemma toggleFullscreen_fields s :
  status (toggleFullscreen s) = status s /\
  isPlaying (toggleFullscreen s) = isPlaying s /\
  currentSpeed (toggleFullscreen s) = currentSpeed s /\
  videoUri (toggleFullscreen s) = videoUri s /\
  showControls (toggleFullscreen s) = true /\
  commands (toggleFullscreen s) = commands s /\
  now (toggleFullscreen s) = now s.
Proof.
  unfold toggleFullscreen.
  match goal with |- context [commit ?b (resetControlsTimeout ?c (set_showControls true ?x))] =>
    destruct (touched_fields b c x) as (-> & -> & -> & -> & -> & -> & ->) end.
  simpl. auto 10.
Qed.

(** What an operation does to the command log, the status and the picked
    file. *)
Lemma step_commands s op : commands (step s op) = commands s ++ sent s op.
Proof.
  destruct op; simpl; rewrite ?app_nil_r.
  - destruct result as [| [| asset rest] |]; reflexivity.
  - apply togglePlayPause_fields.
  - apply changeSpeed_fields.
  - apply seekBackward_fields.
  - apply seekForward_fields.
  - apply toggleFullscreen_fields.
  - apply tap_fields.
  - unfold onPlaybackStatusUpdate. destruct (AV.has _); reflexivity.
  - reflexivity.
  - apply fire_fields.
Qed.

Lemma step_status s op :
  status (step s op) =
    match op with PlaybackStatusUpdate _ st => st | _ => status s end.
Proof.
  destruct op; simpl.
  - destruct result as [| [| asset rest] |]; reflexivity.
  - apply togglePlayPause_fields.
  - unfold changeSpeed.
    match goal with |- context [commit ?b (resetControlsTimeout ?c (set_showControls true ?x))] =>
      destruct (touched_fields b c x) as (-> & _) end.
    destruct (videoRef_current s); reflexivity.
  - apply seekBackward_fields.
  - apply seekForward_fields.
  - apply toggleFullscreen_fields.
  - apply tap_fields.
  - apply onPlaybackStatusUpdate_status.
  - reflexivity.
  - apply fire_fields.
Qed.

Lemma step_videoUri s op : loads op = false -> videoUri (step s op) = videoUri s.
Proof.
  intros Hl. destruct op; simpl.
  - destruct result as [| [| asset rest] |]; try reflexivity. discriminate Hl.
  - unfold togglePlayPause.
    match goal with |- context [commit ?b (resetControlsTimeout ?c (set_showControls true ?x))] =>
      destruct (touched_fields b c x) as (_ & _ & _ & -> & _) end.
    destruct (videoRef_current s); [destruct (isPlaying s) |]; reflexivity.
  - unfold changeSpeed.
    match goal with |- context [commit ?b (resetControlsTimeout ?c (set_showControls true ?x))] =>
      destruct (touched_fields b c x) as (_ & _ & _ & -> & _) end.
    destruct (videoRef_current s); reflexivity.
  - apply seekBackward_fields.
  - apply seekForward_fields.
  - apply toggleFullscreen_fields.
  - apply tap_fields.
  - unfold onPlaybackStatusUpdate. destruct (AV.has _); reflexivity.
  - reflexivity.
  - apply fire_fields.
Qed.

Lemma sent_at_most_one s op : (length (sent s op) <= 1)%nat.
Proof.
  destruct op; simpl; try lia;
    repeat match goal with |- context [if ?b then _ else _] => destruct b end;
    simpl; lia.
Qed.

Lemma sent_needs_video s op : videoRef_current s = false -> sent s op = [].
Proof. intros Hv. destruct op; simpl; rewrite ?Hv; reflexivity. Qed.

Lemma no_pick_no_command ops : forall s,
  videoUri s = None -> forallb (fun op => negb (loads op)) ops = true ->
  videoUri (run s ops) = None /\ commands (run s ops) = commands s.
Proof.
  induction ops as [| op ops IH]; intros s Hu Hops; [split; [exact Hu | reflexivity] |].
  simpl in Hops. apply andb_true_iff in Hops as [Hop Hops].
  apply negb_true_iff in Hop.
  assert (Hu' : videoUri (step s op) = None) by (rewrite step_videoUri; assumption).
  change (run s (op :: ops)) with (run (step s op) ops).
  destruct (IH (step s op) Hu' Hops) as [-> ->]. split; [reflexivity |].
  rewrite step_commands, sent_needs_video, app_nil_r; [reflexivity |].
  unfold videoRef_current. rewrite Hu. reflexivity.
Qed.

(** X10.  An operation of the video screen only ever appends to what has
    been sent to the engine, and appends at most one command; while no video
    is mounted it sends nothing, so until a file is picked the engine
    receives no command at all.  A press on the play button, which is only
    on screen with a video mounted, always sends exactly one command:
    pause if the flag says playing, play otherwise. *)
Theorem at_most_one_command_and_none_without_video :
  (forall s op, exists new,
      commands (step s op) = commands s ++ new /\ (length new <= 1)%nat /\
      (videoRef_current s = false -> new = [])) /\
  (forall ops, forallb (fun op => negb (loads op)) ops = true ->
      commands (run mount ops) = []) /\
  (forall s, offered s TogglePlayPause = true ->
      commands (step s TogglePlayPause) =
        commands s ++ [if isPlaying s then PauseAsync else PlayAsync]).
Proof.
  split; [| split].
  - intros s op. exists (sent s op).
    split; [apply step_commands |]. split; [apply sent_at_most_one |].
    apply sent_needs_video.
  - intros ops Hops. apply (no_pick_no_command ops mount eq_refl Hops).
  - intros s Hoff. rewrite step_commands. simpl in *.
    apply andb_true_iff in Hoff as [Hv _].
    unfold videoRef_current. rewrite Hv. reflexivity.
Qed.

(** X10, witness: presses and timers on the welcome screen, then a press
    on play with a video mounted. *)
Lemma at_most_one_command_witness :
  commands (run mount [TogglePlayPause; SeekForward; ChangeSpeed; Elapse 3000;
                       TimerFires 4; PickVideo DocumentPicker.Canceled]) = [] /\
  commands (step (step mount (PickVideo (DocumentPicker.Assets [Sample.a_mp4])))
              TogglePlayPause) = [PlayAsync].
Proof.
  destruct at_most_one_command_and_none_without_video as (_ & Hnone & Hplay).
  split.
  - apply Hnone. reflexivity.
  - rewrite Hplay; reflexivity.
Defined.

Lemma indexOf_bounds x l : -1 <= Js.indexOf x l < Z.of_nat (length l).
Proof.
  induction l as [| y l IH]; simpl; [lia |].
  destruct (decide (y = x)); [lia |].
  destruct (Z.ltb_spec (Js.indexOf x l) 0); lia.
Qed.

Lemma indexOf_absent x l : ~ In x l -> Js.indexOf x l = -1.
Proof.
  induction l as [| y l IH]; intros Hx; [reflexivity |]. simpl.
  destruct (decide (y = x)) as [-> | _]; [destruct Hx; left; reflexivity |].
  rewrite IH by (intros H; apply Hx; right; exact H). reflexivity.
Qed.

Lemma nextSpeedLabel_in_table label : In (nextSpeedLabel label) speedKeys.
Proof.
  unfold nextSpeedLabel, Js.rem.
  pose proof (indexOf_bounds label speedKeys) as Hb.
  apply nth_In.
  change (Z.of_nat (length speedKeys)) with 8 in *.
  change (length speedKeys) with 8%nat.
  assert (H : 0 <= Z.rem (Js.indexOf label speedKeys + 1) 8 < 8).
  { apply Z.rem_bound_pos; lia. }
  lia.
Qed.

Lemma speedOf_table label :
  In label speedKeys ->
  exists q, speedOf label = Some q /\ In q (map snd PLAYBACK_SPEEDS).
Proof.
  intros Hl. simpl in Hl.
  decompose [or] Hl; try contradiction; subst label;
    eexists; (split; [reflexivity | simpl; tauto]).
Qed.

Lemma run_snoc s ops op : run s (ops ++ [op]) = step (run s ops) op.
Proof. unfold run. rewrite fold_left_app. reflexivity. Qed.

(** X11.  [changeSpeed] always lands on a label of the table: from a
    label that is not in the table it goes to the first entry, 0.5x.  So
    every rate command the screen ever sends carries one of the eight rates
    of the table, never [undefined], and asks for pitch correction. *)
Theorem rate_commands_carry_table_rates :
  (forall s, In (currentSpeed (step s ChangeSpeed)) speedKeys) /\
  (forall s, ~ In (currentSpeed s) speedKeys ->
      currentSpeed (step s ChangeSpeed) = "0.5x") /\
  (forall s ops, Forall rateFromTable (commands s) ->
      Forall rateFromTable (commands (run s ops))) /\
  (forall ops, Forall rateFromTable (commands (run mount ops))).
Proof.
  assert (Hlabel : forall s, In (currentSpeed (step s ChangeSpeed)) speedKeys).
  { intros s. simpl. destruct (changeSpeed_fields s) as [-> _].
    apply nextSpeedLabel_in_table. }
  assert (Hrun : forall ops s, Forall rateFromTable (commands s) ->
                   Forall rateFromTable (commands (run s ops))).
  { induction ops as [| op ops IH]; intros s Hs; [exact Hs |].
    apply IH. rewrite step_commands. apply Forall_app. split; [exact Hs |].
    destruct op; simpl; try constructor;
      repeat match goal with |- context [if ?b then _ else _] => destruct b end;
      repeat constructor.
    apply speedOf_table, nextSpeedLabel_in_table. }
  split; [exact Hlabel |]. split; [| split].
  - intros s Hs. simpl. destruct (changeSpeed_fields s) as [-> _].
    unfold nextSpeedLabel. rewrite (indexOf_absent _ _ Hs). reflexivity.
  - intros s ops. apply Hrun.
  - intros ops. apply Hrun. constructor.
Qed.

(** X11, witness: a state whose label is not in the table. *)
Lemma rate_commands_witness :
  currentSpeed (step (set_currentSpeed "10x" mount) ChangeSpeed) = "0.5x".
Proof.
  apply (proj1 (proj2 rate_commands_carry_table_rates)).
  simpl. intuition discriminate.
Defined.

Lemma reports_after_step s op :
  opReportsNonNegative op -> reportsNonNegative (status s) ->
  reportsNonNegative (status (step s op)).
Proof.
  intros Hop Hs. rewrite step_status. destruct op; try exact Hs. exact Hop.
Qed.

Lemma sent_seeks_nonnegative s op :
  reportsNonNegative (status s) -> Forall seekNonNegative (sent s op).
Proof.
  intros [Hp Hd]. destruct op; simpl; try constructor;
    repeat match goal with |- context [if ?b then _ else _] => destruct b eqn:? end;
    repeat constructor; simpl; try lia.
  destruct (AV.positionMillis (status s)) as [p |] eqn:Ep;
    [| rewrite andb_false_r in *; discriminate].
  destruct (AV.durationMillis (status s)) as [d |] eqn:Ed;
    [| rewrite andb_false_r in *; discriminate].
  specialize (Hp p eq_refl). specialize (Hd d eq_refl).
  rewrite !num_or_0. lia.
Qed.

(** X12.  As long as the engine never reports a negative position or
    duration, the video screen never asks it to seek to a negative
    position, over any sequence of operations.  Whatever the engine
    reports, [seekBackward] never does. *)
Theorem seeks_are_never_negative :
  (forall ops, Forall opReportsNonNegative ops ->
      Forall seekNonNegative (commands (run mount ops))) /\
  (forall s, Forall seekNonNegative (commands s) ->
      Forall seekNonNegative (commands (step s SeekBackward))).
Proof.
  split.
  - assert (H : forall ops s,
               reportsNonNegative (status s) -> Forall seekNonNegative (commands s) ->
               Forall opReportsNonNegative ops ->
               Forall seekNonNegative (commands (run s ops))).
    { induction ops as [| op ops IH]; intros s Hs Hc Hops; [exact Hc |].
      apply Forall_cons in Hops as [Hop Hops].
      apply IH; [apply reports_after_step; assumption | | exact Hops].
      rewrite step_commands. apply Forall_app. split; [exact Hc |].
      apply sent_seeks_nonnegative, Hs. }
    intros ops Hops. apply H; [split; discriminate | constructor | exact Hops].
  - intros s Hs. rewrite step_commands. apply Forall_app. split; [exact Hs |].
    simpl. destruct (_ && _); repeat constructor. simpl. lia.
Qed.

(** X12, witness: seeking back and forth right after the first report. *)
Lemma seeks_are_never_negative_witness :
  Forall seekNonNegative
    (commands (run mount [PickVideo (DocumentPicker.Assets [Sample.a_mp4]);
                          PlaybackStatusUpdate 1 (Sample.loaded true 2000 (Some 4000));
                          SeekBackward; SeekForward])).
Proof.
  apply (proj1 seeks_are_never_negative).
  repeat constructor; simpl; intros ? [=]; lia.
Defined.

End PlayerCommands.

(** ** When the controls of the video screen show and hide *)

Section PlayerControls.

Import Player.

Lemma reset_ui_fields c s :
  isFullscreen (resetControlsTimeout c s) = isFullscreen s /\
  currentFileName (resetControlsTimeout c s) = currentFileName s.
Proof. split; reflexivity. Qed.

Lemma commit_ui_fields b s :
  isFullscreen (commit b s) = isFullscreen s /\
  currentFileName (commit b s) = currentFileName s.
Proof. unfold commit. destruct (Bool.eqb _ _); split; reflexivity. Qed.

(** A handler that ends with [setShowControls(true); resetControlsTimeout()]
    leaves one pending timeout, due 3000 ms later; its callback has captured
    the handler's [isPlaying], or the next render's when the controls were
    hidden and the effect re-arms it. *)
Lemma touched_timer b c x :
  timers_ok x ->
  exists id,
    timers (commit b (resetControlsTimeout c (set_showControls true x))) =
      [{| tid := id; deadline := now x + 3000;
          closure_isPlaying := if showControls b then c else isPlaying x |}].
Proof.
  intros Hx.
  assert (Hx' : timers_ok (set_showControls true x))
    by (revert Hx; apply timers_ok_same; reflexivity).
  destruct (reset_leaves_one c _ Hx') as (Ht & _).
  unfold commit.
  replace (showControls (resetControlsTimeout c (set_showControls true x)))
    with true by reflexivity.
  destruct (showControls b); simpl Bool.eqb; cbv iota.
  - eexists. exact Ht.
  - destruct (reset_leaves_one
                (isPlaying (resetControlsTimeout c (set_showControls true x)))
                _ (reset_timers_ok c _ Hx')) as (Ht' & _).
    eexists. exact Ht'.
Qed.

Lemma button_rearms s op :
  timers_ok s -> isButton op = true ->
  showControls (step s op) = true /\ now (step s op) = now s /\
  isPlaying (step s op) = isPlaying s /\
  exists id,
    timers (step s op) =
      [{| tid := id; deadline := now s + 3000; closure_isPlaying := isPlaying s |}].
Proof.
  intros Hs Hop.
  assert (Hsame : forall x, timers x = timers s ->
            controlsTimeoutRef x = controlsTimeoutRef s ->
            nextTimerId x = nextTimerId s -> now x = now s ->
            isPlaying x = isPlaying s ->
            let s' := commit s (resetControlsTimeout (isPlaying s)
                                  (set_showControls true x)) in
            showControls s' = true /\ now s' = now s /\ isPlaying s' = isPlaying s /\
            exists id,
              timers s' =
                [{| tid := id; deadline := now s + 3000;
                    closure_isPlaying := isPlaying s |}]).
  { intros x Ht Hr Hn Hnow Hp s'.
    assert (Hx : timers_ok x) by (revert Hs; apply timers_ok_same; assumption).
    destruct (touched_fields s (isPlaying s) x) as (_ & Hp' & _ & _ & Hsh & _ & Hnow').
    split; [exact Hsh |]. split; [subst s'; rewrite Hnow'; exact Hnow |].
    split; [subst s'; rewrite Hp'; exact Hp |].
    destruct (touched_timer s (isPlaying s) x Hx) as (id & Hid).
    exists id. subst s'. rewrite Hid, Hnow, Hp. destruct (showControls s); reflexivity. }
  destruct op; try discriminate Hop; simpl.
  - unfold togglePlayPause.
    apply Hsame; destruct (videoRef_current s); try reflexivity;
      destruct (isPlaying s) eqn:E; simpl; rewrite ?E; reflexivity.
  - unfold changeSpeed.
    destruct (videoRef_current s); apply Hsame; reflexivity.
  - unfold seekBackward. destruct (_ && _); apply Hsame; reflexivity.
  - unfold seekForward. destruct (_ && _ && _); apply Hsame; reflexivity.
  - unfold toggleFullscreen. apply Hsame; reflexivity.
Qed.

(** X13.  After any button of the controls overlay (play/pause, speed,
    either seek, fullscreen) the controls are shown and exactly one hide
    timeout is pending, due 3000 ms after the press, whose callback has
    captured the [isPlaying] flag as it was at the press. *)
Theorem button_shows_controls_and_rearms_the_timer :
  forall ops op,
    isButton op = true ->
    let s := run mount ops in
    showControls (step s op) = true /\
    exists id,
      timers (step s op) =
        [{| tid := id; deadline := now s + 3000; closure_isPlaying := isPlaying s |}].
Proof.
  intros ops op Hop s.
  destruct (button_rearms s op (reachable_timers_ok ops) Hop) as (H1 & _ & _ & H2).
  split; assumption.
Qed.

(** X13, witness: play is pressed on a mounted, paused video. *)
Lemma button_rearms_witness :
  let s := run mount [PickVideo (DocumentPicker.Assets [Sample.a_mp4]); Elapse 500] in
  showControls (step s TogglePlayPause) = true /\
  exists id,
    timers (step s TogglePlayPause) =
      [{| tid := id; deadline := 3500; closure_isPlaying := false |}].
Proof.
  apply (button_shows_controls_and_rearms_the_timer
           [PickVideo (DocumentPicker.Assets [Sample.a_mp4]); Elapse 500]
           TogglePlayPause eq_refl).
Defined.

Lemma fire_showControls id s :
  showControls (fire id s) = showControls s \/
  (showControls (fire id s) = false /\
   exists t, In t (timers s) /\ tid t = id /\ closure_isPlaying t = true /\
             deadline t <= now s).
Proof.
  unfold fire. destruct (find _ _) as [t |] eqn:Hf; [| left; reflexivity].
  apply find_some in Hf as [Hin Hid]. apply Nat.eqb_eq in Hid.
  destruct (Z.leb_spec (deadline t) (now s)); [| left; reflexivity].
  match goal with |- context [commit ?b ?x] =>
    destruct (commit_fields b x) as (_ & _ & _ & _ & -> & _) end.
  unfold timeoutCallback. destruct (closure_isPlaying t) eqn:Hc; [| left; reflexivity].
  right. split; [reflexivity |]. exists t. auto.
Qed.

(** X14.  Shown controls get hidden only by a tap on the video or by a
    due timeout whose callback captured [isPlaying = true]; nothing else (no
    pick, no status event, no passing of time, no timeout armed while
    paused) hides them.  Hidden controls get shown only by a tap or by a
    button handler. *)
Theorem controls_change_only_by_tap_button_or_timer :
  forall s op,
    (showControls s = true -> showControls (step s op) = false ->
     op = HandleVideoTap \/
     exists id t, op = TimerFires id /\ In t (timers s) /\ tid t = id /\
                  closure_isPlaying t = true /\ deadline t <= now s) /\
    (showControls s = false -> showControls (step s op) = true ->
     op = HandleVideoTap \/ isButton op = true).
Proof.
  intros s op.
  assert (Hbutton : forall x,
            showControls
              (commit s (resetControlsTimeout (isPlaying s) (set_showControls true x)))
            = true) by (intros x; apply touched_fields).
  destruct op; simpl.
  - destruct result as [| [| asset rest] |]; simpl; split; congruence.
  - unfold togglePlayPause. rewrite Hbutton. split; [discriminate | auto].
  - unfold changeSpeed. rewrite Hbutton. split; [discriminate | auto].
  - unfold seekBackward. rewrite Hbutton. split; [discriminate | auto].
  - unfold seekForward. rewrite Hbutton. split; [discriminate | auto].
  - unfold toggleFullscreen. rewrite Hbutton. split; [discriminate | auto].
  - split; auto.
  - unfold onPlaybackStatusUpdate. destruct (AV.has _); simpl; split; congruence.
  - split; congruence.
  - destruct (fire_showControls id s) as [-> | [Hf (t & Ht)]].
    + split; congruence.
    + split; [| congruence]. intros _ _. right. exists id, t. tauto.
Qed.

(** X14, witness: a timeout armed while playing hides the controls. *)
Lemma controls_change_witness :
  let s := run mount [PickVideo (DocumentPicker.Assets [Sample.a_mp4]);
                      PlaybackStatusUpdate 1 (Sample.loaded true 0 (Some 60000));
                      SeekForward; Elapse 3000] in
  exists id t, In t (timers s) /\ tid t = id /\ closure_isPlaying t = true /\
               deadline t <= now s.
Proof.
  intros s.
  destruct (proj1 (controls_change_only_by_tap_button_or_timer s (TimerFires 2))
              eq_refl eq_refl) as [H | (id & t & _ & H)];
    [discriminate H | exists id, t; exact H].
Defined.

(** X15.  Tapping the video twice brings the controls back to where they
    were, and pressing fullscreen twice brings fullscreen back; neither
    touches the status, the [isPlaying] flag, the speed, the picked file or
    the engine. *)
Theorem tap_and_fullscreen_are_involutions :
  forall s,
    showControls (step s HandleVideoTap) = negb (showControls s) /\
    showControls (run s [HandleVideoTap; HandleVideoTap]) = showControls s /\
    isFullscreen (step s ToggleFullscreen) = negb (isFullscreen s) /\
    isFullscreen (run s [ToggleFullscreen; ToggleFullscreen]) = isFullscreen s /\
    (forall op, op = HandleVideoTap \/ op = ToggleFullscreen ->
        status (step s op) = status s /\ isPlaying (step s op) = isPlaying s /\
        currentSpeed (step s op) = currentSpeed s /\
        videoUri (step s op) = videoUri s /\ commands (step s op) = commands s).
Proof.
  intros s.
  assert (Hfs : forall x, isFullscreen (toggleFullscreen x) = negb (isFullscreen x)).
  { intros x. unfold toggleFullscreen.
    match goal with |- context [commit ?b ?y] =>
      destruct (commit_ui_fields b y) as (-> & _) end.
    reflexivity. }
  split; [apply tap_fields |]. split; [| split; [apply Hfs | split]].
  - simpl. destruct (tap_fields (handleVideoTap s)) as (_ & _ & _ & _ & -> & _).
    destruct (tap_fields s) as (_ & _ & _ & _ & -> & _). apply negb_involutive.
  - simpl. rewrite !Hfs. apply negb_involutive.
  - intros op [-> | ->]; simpl.
    + destruct (tap_fields s) as (-> & -> & -> & -> & _ & -> & _). auto.
    + destruct (toggleFullscreen_fields s) as (-> & -> & -> & -> & _ & -> & _). auto.
Qed.

(** X15, witness. *)
Lemma tap_and_fullscreen_witness :
  status (step mount HandleVideoTap) = AV.empty /\
  commands (step mount ToggleFullscreen) = [].
Proof.
  destruct (tap_and_fullscreen_are_involutions mount) as (_ & _ & _ & _ & H).
  split.
  - destruct (H HandleVideoTap (or_introl eq_refl)) as (-> & _). reflexivity.
  - destruct (H ToggleFullscreen (or_intror eq_refl)) as (_ & _ & _ & _ & ->).
    reflexivity.
Defined.

End PlayerControls.

(** ** Time labels *)

Section TimeLabels.

Lemma two_digit_seconds (n : nat) :
  (n < 60)%nat ->
  Js.padStart0 2 (pretty (Z.of_nat n)) =
    String (pretty_N_char (Z.to_N (Z.of_nat n / 10)))
      (String (pretty_N_char (Z.to_N (Z.of_nat n mod 10))) "").
Proof.
  intros Hn.
  do 60 (destruct n as [| n]; [vm_compute; reflexivity |]).
  lia.
Qed.

(** X16.  For a time from 0 up to the largest safe integer, below
    2^53 ms, [formatTime] prints the whole minutes, a colon, and the seconds
    of the minute on exactly two digits; the minutes are not wrapped into
    hours, and the milliseconds within the second do not show. *)
Theorem formatTime_is_minutes_colon_two_digit_seconds :
  (forall millis, 0 <= millis < 2 ^ 53 ->
      let seconds := (millis / 1000) mod 60 in
      formatTime millis =
        Some (pretty (millis / 60000) +:+ ":" +:+
              String (pretty_N_char (Z.to_N (seconds / 10)))
                (String (pretty_N_char (Z.to_N (seconds mod 10))) ""))) /\
  (forall millis, 0 <= millis < 2 ^ 53 ->
      formatTime millis = formatTime (1000 * (millis / 1000))).
Proof.
  assert (Hsafe : forall z, 0 <= z < 2 ^ 53 -> safeInteger z = true).
  { intros z Hz. unfold safeInteger.
    apply andb_true_intro. split; apply Z.ltb_lt; lia. }
  split.
  - intros millis Hm seconds. unfold formatTime, Js.rem.
    rewrite (Hsafe millis Hm).
    assert (Hts : 0 <= millis / 1000) by (apply Z.div_pos; lia).
    rewrite Z.rem_mod_nonneg by lia.
    rewrite Z.div_div by lia. change (1000 * 60) with 60000.
    fold seconds.
    assert (Hs : 0 <= seconds < 60) by (apply Z.mod_pos_bound; lia).
    rewrite <- (Z2Nat.id seconds) by lia.
    rewrite two_digit_seconds by lia. reflexivity.
  - intros millis Hm. unfold formatTime.
    assert (Hfloor : 0 <= 1000 * (millis / 1000) <= millis).
    { pose proof (Z.div_pos millis 1000 ltac:(lia) ltac:(lia)).
      pose proof (Z.mul_div_le millis 1000 ltac:(lia)). lia. }
    rewrite (Hsafe millis Hm), (Hsafe (1000 * (millis / 1000))) by lia.
    replace (1000 * (millis / 1000) / 1000) with (millis / 1000); [reflexivity |].
    rewrite Z.mul_comm, Z.div_mul by lia. reflexivity.
Qed.

(** X16, witness: one hour, one minute and one second and a half. *)
Lemma formatTime_witness : formatTime 3661500 = Some "61:01".
Proof.
  rewrite (proj1 formatTime_is_minutes_colon_two_digit_seconds 3661500); [| lia].
  reflexivity.
Defined.

End TimeLabels.

(** ** Sounds of the audio screen *)

Section AudioSounds.

Lemma audio_pick_failed a rest s :
  let s' := Audio.pickAudio (DocumentPicker.Assets (a :: rest)) None s in
  Audio.sound s' = Audio.sound s /\ Audio.currentTrack s' = Audio.currentTrack s /\
  Audio.trackName s' = Audio.trackName s /\ Audio.duration s' = Audio.duration s /\
  Audio.isPlaying s' = Audio.isPlaying s /\ Audio.nextSound s' = Audio.nextSound s /\
  Audio.commands s' =
    Audio.commands s ++
      match Audio.sound s with Some h => [Audio.UnloadAsync h] | None => [] end.
Proof.
  unfold Audio.pickAudio, Audio.soundEffectCleanup, Audio.unloadCurrent.
  destruct (Audio.sound s) as [h |] eqn:Hs; simpl; rewrite ?Hs.
  - destruct (decide _); [| simpl in *; congruence]. simpl. auto 10.
  - rewrite app_nil_r. auto 10.
Qed.

Lemma audio_pick_succeeded a rest st s :
  (forall h, Audio.sound s = Some h -> h <> Audio.nextSound s) ->
  let s' := Audio.pickAudio (DocumentPicker.Assets (a :: rest)) (Some st) s in
  Audio.sound s' = Some (Audio.nextSound s) /\
  Audio.nextSound s' = S (Audio.nextSound s) /\
  Audio.isPlaying s' = Audio.isPlaying s /\
  Audio.currentTrack s' = Some (DocumentPicker.uri a) /\
  Audio.duration s' =
    (if Js.bool_or (AV.isLoaded st) false
     then Js.num_or (AV.durationMillis st) 0 else Audio.duration s) /\
  Audio.commands s' =
    Audio.commands s ++
      match Audio.sound s with
      | Some h => [Audio.UnloadAsync h; Audio.UnloadAsync h]
      | None => []
      end.
Proof.
  intros Hfresh.
  unfold Audio.pickAudio, Audio.soundEffectCleanup, Audio.unloadCurrent. simpl.
  destruct (Audio.sound s) as [h |] eqn:Hs.
  - specialize (Hfresh h eq_refl).
    destruct (Js.bool_or (AV.isLoaded st) false); simpl;
      (destruct (decide _) as [He | _];
       [simpl in He; injection He as He; congruence |]);
      simpl; rewrite <- app_assoc; auto 10.
  - destruct (Js.bool_or (AV.isLoaded st) false); simpl; rewrite app_nil_r; auto 10.
Qed.

Lemma audio_pick_nothing result created s :
  (forall a rest, result <> DocumentPicker.Assets (a :: rest)) ->
  Audio.pickAudio result created s = Audio.set_isLoading false s.
Proof.
  intros Hno. unfold Audio.pickAudio, Audio.soundEffectCleanup.
  destruct result as [| [| a rest] |]; try (destruct (Hno a rest eq_refl));
    simpl; destruct (Audio.sound s) as [h |] eqn:E; try reflexivity;
    (destruct (decide _) as [_ | Hn]; [reflexivity | simpl in Hn; congruence]).
Qed.

(** X17.  Whatever the picker and the engine answer, [pickAudio] ends
    with [isLoading] false.  A cancelled or failed pick changes nothing else
    and sends nothing.  When the file is picked but the engine cannot create
    the sound, the screen keeps the previous sound, track, name, duration
    and flag, yet that previous sound has already been sent [unloadAsync]. *)
Theorem pickAudio_outcomes :
  (forall result created s,
      Audio.isLoading (Audio.pickAudio result created s) = false) /\
  (forall result created s,
      (forall a rest, result <> DocumentPicker.Assets (a :: rest)) ->
      Audio.pickAudio result created s = Audio.set_isLoading false s) /\
  (forall a rest s,
      let s' := Audio.pickAudio (DocumentPicker.Assets (a :: rest)) None s in
      Audio.sound s' = Audio.sound s /\ Audio.currentTrack s' = Audio.currentTrack s /\
      Audio.trackName s' = Audio.trackName s /\ Audio.duration s' = Audio.duration s /\
      Audio.isPlaying s' = Audio.isPlaying s /\
      Audio.commands s' =
        Audio.commands s ++
          match Audio.sound s with Some h => [Audio.UnloadAsync h] | None => [] end).
Proof.
  split; [| split].
  - intros result created s.
    unfold Audio.pickAudio, Audio.soundEffectCleanup, Audio.unloadCurrent.
    repeat case_match; reflexivity.
  - exact audio_pick_nothing.
  - intros a rest s s'.
    destruct (audio_pick_failed a rest s) as (H1 & H2 & H3 & H4 & H5 & _ & H7).
    auto 10.
Qed.

(** X17, witness: the picker is dismissed. *)
Lemma pickAudio_outcomes_witness :
  Audio.pickAudio DocumentPicker.Canceled None Audio.mount = Audio.mount.
Proof.
  rewrite (proj1 (proj2 pickAudio_outcomes) DocumentPicker.Canceled None Audio.mount);
    [reflexivity | discriminate].
Defined.

Lemma audio_toggle_fields engine s :
  Audio.sound (Audio.togglePlayPause engine s) = Audio.sound s /\
  Audio.nextSound (Audio.togglePlayPause engine s) = Audio.nextSound s /\
  exists extra,
    Audio.commands (Audio.togglePlayPause engine s) = Audio.commands s ++ extra.
Proof.
  unfold Audio.togglePlayPause.
  destruct (Audio.sound s) as [h |] eqn:E.
  - destruct (Js.bool_or _ _).
    + destruct (Audio.isPlaying s); simpl; rewrite E; eauto.
    + rewrite E. split; [reflexivity |]. split; [reflexivity |].
      exists []. rewrite app_nil_r. reflexivity.
  - rewrite E. split; [reflexivity |]. split; [reflexivity |].
    exists []. rewrite app_nil_r. reflexivity.
Qed.

Lemma audio_step_accounted s op :
  soundsAccountedFor s -> soundsAccountedFor (Audio.step s op).
Proof.
  intros [Hcur Hold].
  destruct op as [result created | engine | origin ev]; simpl.
  - destruct result as [| [| a rest] |];
      try (rewrite audio_pick_nothing by discriminate; split; [exact Hcur | exact Hold]).
    destruct created as [st |].
      * assert (Hfresh : forall h, Audio.sound s = Some h -> h <> Audio.nextSound s).
        { intros h Hh. specialize (Hcur h Hh). lia. }
        destruct (audio_pick_succeeded a rest st s Hfresh)
          as (Hs & Hn & _ & _ & _ & Hc).
        split.
        -- intros h Hh. rewrite Hs in Hh. injection Hh as <-. rewrite Hn. lia.
        -- intros h Hlt Hne. rewrite Hn in Hlt. rewrite Hs in Hne. rewrite Hc.
           assert (Hlt' : (h < Audio.nextSound s)%nat).
           { destruct (decide (h = Audio.nextSound s)) as [-> | ?]; [congruence | lia]. }
           apply in_or_app.
           destruct (Audio.sound s) as [h0 |] eqn:E.
           ++ destruct (decide (h0 = h)) as [-> | Hd].
              ** right. left. reflexivity.
              ** left. apply Hold; [exact Hlt' | congruence].
           ++ left. apply Hold; [exact Hlt' | congruence].
      * destruct (audio_pick_failed a rest s) as (Hs & _ & _ & _ & _ & Hn & Hc).
        split.
        -- intros h Hh. rewrite Hs in Hh. rewrite Hn. apply Hcur, Hh.
        -- intros h Hlt Hne. rewrite Hn in Hlt. rewrite Hs in Hne. rewrite Hc.
           apply in_or_app. left. apply Hold; assumption.
  - destruct (audio_toggle_fields engine s) as (Hs & Hn & extra & Hc).
    split.
    + intros h Hh. rewrite Hn. apply Hcur. rewrite <- Hs. exact Hh.
    + intros h Hlt Hne. rewrite Hc. apply in_or_app. left.
      apply Hold; [rewrite <- Hn | rewrite <- Hs]; assumption.
  - split; [exact Hcur | exact Hold].
Qed.

Lemma audio_reachable_accounted ops : soundsAccountedFor (Audio.run Audio.mount ops).
Proof.
  assert (Hrun : forall ops s, soundsAccountedFor s ->
                   soundsAccountedFor (Audio.run s ops)).
  { clear ops. induction ops as [| op ops IH]; intros s Hs; [exact Hs |].
    apply IH, audio_step_accounted, Hs. }
  apply Hrun. split; [discriminate |]. simpl. intros h Hh. lia.
Qed.

(** X18.  However the audio screen is used, every sound it has created
    is either the one it currently holds or has been sent [unloadAsync]:
    it never keeps a second sound alive.  A sound that gets replaced is
    sent [unloadAsync] twice, once by [pickAudio] and once more by the
    cleanup of the effect on [sound]. *)
Theorem replaced_sounds_are_unloaded :
  (forall ops, soundsAccountedFor (Audio.run Audio.mount ops)) /\
  (forall ops a rest st h,
      let s := Audio.run Audio.mount ops in
      Audio.sound s = Some h ->
      let s' := Audio.step s (Audio.PickAudio (DocumentPicker.Assets (a :: rest)) (Some st)) in
      Audio.sound s' = Some (Audio.nextSound s) /\ h <> Audio.nextSound s /\
      Audio.commands s' =
        Audio.commands s ++ [Audio.UnloadAsync h; Audio.UnloadAsync h]).
Proof.
  split; [exact audio_reachable_accounted |].
  intros ops a rest st h s Hh s'.
  destruct (audio_reachable_accounted ops) as [Hcur _]. fold s in Hcur.
  assert (Hfresh : forall h, Audio.sound s = Some h -> h <> Audio.nextSound s).
  { intros h0 Hh0. specialize (Hcur h0 Hh0). lia. }
  destruct (audio_pick_succeeded a rest st s Hfresh) as (Hs & _ & _ & _ & _ & Hc).
  split; [exact Hs |]. split; [apply Hfresh, Hh |].
  subst s'. simpl. rewrite Hc, Hh. reflexivity.
Qed.

(** X18, witness: a second track is picked. *)
Lemma replaced_sounds_witness :
  let engine := Sample.loaded false 0 (Some 180000) in
  let pick := Audio.PickAudio (DocumentPicker.Assets [Sample.b_mp3]) (Some engine) in
  Audio.commands (Audio.run Audio.mount [pick; pick])
    = [Audio.UnloadAsync 0; Audio.UnloadAsync 0].
Proof.
  intros engine pick.
  destruct (proj2 replaced_sounds_are_unloaded [pick] Sample.b_mp3 [] engine 0%nat eq_refl)
    as (_ & _ & Hc).
  exact Hc.
Defined.

(** X19.  [togglePlayPause] on the audio screen does nothing when there
    is no sound or when the engine reports the sound as not loaded.  On a
    loaded sound, two presses bring the flag back and send the two opposite
    commands, both to the sound the screen holds. *)
Theorem audio_toggle_twice :
  (forall s engine,
      Audio.sound s = None \/ Js.bool_or (AV.isLoaded engine) false = false ->
      Audio.step s (Audio.TogglePlayPause engine) = s) /\
  (forall s h e1 e2,
      Audio.sound s = Some h ->
      AV.isLoaded e1 = Some true -> AV.isLoaded e2 = Some true ->
      let s2 := Audio.run s [Audio.TogglePlayPause e1; Audio.TogglePlayPause e2] in
      Audio.isPlaying s2 = Audio.isPlaying s /\
      Audio.commands s2 =
        Audio.commands s ++
          (if Audio.isPlaying s
           then [Audio.PauseAsync h; Audio.PlayAsync h]
           else [Audio.PlayAsync h; Audio.PauseAsync h])).
Proof.
  split.
  - intros s engine [Hs | He]; simpl; unfold Audio.togglePlayPause.
    + rewrite Hs. reflexivity.
    + rewrite He. destruct (Audio.sound s); reflexivity.
  - intros s h e1 e2 Hs H1 H2 s2. subst s2. simpl.
    unfold Audio.togglePlayPause. rewrite Hs, H1. simpl.
    destruct (Audio.isPlaying s); simpl; rewrite Hs, H2; simpl;
      rewrite <- app_assoc; split; reflexivity.
Qed.

(** X19, witness: play then pause on a freshly picked track. *)
Lemma audio_toggle_twice_witness :
  let engine := Sample.loaded false 0 (Some 180000) in
  let s := Audio.run Audio.mount
             [Audio.PickAudio (DocumentPicker.Assets [Sample.b_mp3]) (Some engine)] in
  Audio.step Audio.mount (Audio.TogglePlayPause engine) = Audio.mount /\
  Audio.commands (Audio.run s [Audio.TogglePlayPause engine; Audio.TogglePlayPause engine])
    = [Audio.PlayAsync 0; Audio.PauseAsync 0].
Proof.
  intros engine s. split.
  - apply (proj1 audio_toggle_twice). left. reflexivity.
  - destruct (proj2 audio_toggle_twice s 0%nat engine engine eq_refl eq_refl eq_refl)
      as (_ & Hc).
    exact Hc.
Defined.

(** X20.  Picking another track does not touch the [isPlaying] flag: when
    a track is replaced while the flag says playing, the flag still says
    playing although the new sound was created paused, and the next press
    sends [pauseAsync] to the new sound.  The duration is replaced only if
    the engine reports the new sound as loaded; otherwise the previous
    track's duration stays. *)
Theorem pick_keeps_the_playing_flag :
  forall ops a rest st,
    let s := Audio.run Audio.mount ops in
    let s' := Audio.step s (Audio.PickAudio (DocumentPicker.Assets (a :: rest)) (Some st)) in
    Audio.isPlaying s' = Audio.isPlaying s /\
    (Js.bool_or (AV.isLoaded st) false = false -> Audio.duration s' = Audio.duration s) /\
    (forall engine,
        Audio.isPlaying s = true -> AV.isLoaded engine = Some true ->
        Audio.commands (Audio.step s' (Audio.TogglePlayPause engine)) =
          Audio.commands s' ++ [Audio.PauseAsync (Audio.nextSound s)] /\
        Audio.isPlaying (Audio.step s' (Audio.TogglePlayPause engine)) = false).
Proof.
  intros ops a rest st s s'.
  destruct (audio_reachable_accounted ops) as [Hcur _]. fold s in Hcur.
  assert (Hfresh : forall h, Audio.sound s = Some h -> h <> Audio.nextSound s).
  { intros h0 Hh0. specialize (Hcur h0 Hh0). lia. }
  destruct (audio_pick_succeeded a rest st s Hfresh) as (Hs & _ & Hp & _ & Hd & _).
  subst s'. cbn [Audio.step].
  split; [exact Hp |]. split.
  - intros Hl. rewrite Hd, Hl. reflexivity.
  - intros engine Hplaying Hl. simpl. unfold Audio.togglePlayPause.
    rewrite Hs, Hl, Hp, Hplaying. simpl. split; reflexivity.
Qed.

End AudioSounds.

(** ** The play indicator and the auto-hide of the video screen *)

Section PlayerIndicator.

Import Player.

Lemma step_isPlaying s op :
  isPlaying (step s op) =
    match op with
    | PlaybackStatusUpdate _ st =>
        if AV.has (AV.isLoaded st) then Js.bool_or (AV.isPlaying st) false
        else isPlaying s
    | _ => isPlaying s
    end.
Proof.
  destruct op; simpl.
  - destruct result as [| [| asset rest] |]; reflexivity.
  - apply togglePlayPause_fields.
  - unfold changeSpeed.
    match goal with |- context [commit ?b (resetControlsTimeout ?c (set_showControls true ?x))] =>
      destruct (touched_fields b c x) as (_ & -> & _) end.
    destruct (videoRef_current s); reflexivity.
  - unfold seekBackward.
    match goal with |- context [commit ?b (resetControlsTimeout ?c (set_showControls true ?x))] =>
      destruct (touched_fields b c x) as (_ & -> & _) end.
    destruct (_ && _); reflexivity.
  - unfold seekForward.
    match goal with |- context [commit ?b (resetControlsTimeout ?c (set_showControls true ?x))] =>
      destruct (touched_fields b c x) as (_ & -> & _) end.
    destruct (_ && _ && _); reflexivity.
  - apply toggleFullscreen_fields.
  - apply tap_fields.
  - apply onPlaybackStatusUpdate_isPlaying.
  - reflexivity.
  - apply fire_fields.
Qed.

(** X21.  As long as every status event has the [isLoaded] key, the
    [isPlaying] flag of the video screen is, after any sequence of
    operations, what the last delivered status reports ([false] when it
    reports nothing, as for an error status): no handler other than the
    status callback changes the flag. *)
Theorem play_indicator_is_the_last_report :
  forall ops, Forall opHasIsLoaded ops ->
    isPlaying (run mount ops) = Js.bool_or (AV.isPlaying (status (run mount ops))) false.
Proof.
  assert (H : forall ops s,
             isPlaying s = Js.bool_or (AV.isPlaying (status s)) false ->
             Forall opHasIsLoaded ops ->
             isPlaying (run s ops) = Js.bool_or (AV.isPlaying (status (run s ops))) false).
  { induction ops as [| op ops IH]; intros s Hs Hops; [exact Hs |].
    apply Forall_cons in Hops as [Hop Hops].
    apply IH; [| exact Hops].
    rewrite step_isPlaying, step_status.
    destruct op; try exact Hs. simpl in Hop. rewrite Hop. reflexivity. }
  intros ops Hops. apply H; [reflexivity | exact Hops].
Qed.

(** X21, witness: play is pressed and the engine then reports an error
    status. *)
Lemma play_indicator_witness :
  let failed := {| AV.isLoaded := Some false; AV.isPlaying := None;
                   AV.positionMillis := None; AV.durationMillis := None;
                   AV.rate := None |} in
  isPlaying (run mount [PickVideo (DocumentPicker.Assets [Sample.a_mp4]);
                        PlaybackStatusUpdate 1 (Sample.loaded true 0 (Some 60000));
                        TogglePlayPause;
                        PlaybackStatusUpdate 1 failed]) = false.
Proof.
  intros failed.
  rewrite play_indicator_is_the_last_report; [reflexivity |].
  repeat constructor.
Defined.

(** X22.  A button pressed while the flag says playing makes the
    controls disappear 3000 ms later, when its timeout fires; a button
    pressed while the flag says not playing leaves a timeout that never
    hides them, whenever it fires. *)
Theorem auto_hide_follows_the_flag_at_the_press :
  forall ops op, isButton op = true ->
    let s := step (run mount ops) op in
    (isPlaying (run mount ops) = true ->
     exists id, showControls (run s [Elapse 3000; TimerFires id]) = false) /\
    (isPlaying (run mount ops) = false ->
     forall (e : nat) id, showControls (run s [Elapse e; TimerFires id]) = true).
Proof.
  intros ops op Hop s.
  assert (H0 : timers_ok (run mount ops)) by apply reachable_timers_ok.
  destruct (button_rearms (run mount ops) op H0 Hop) as (Hshow & Hnow & _ & id & Ht).
  assert (Hs : timers_ok s) by (apply step_timers_ok, H0).
  fold s in Hshow, Hnow, Ht.
  set (p := isPlaying (run mount ops)) in *.
  set (n0 := now (run mount ops)) in *.
  clearbody s p n0.
  split.
  - intros Hp. exists id.
    set (t := {| tid := id; deadline := n0 + 3000; closure_isPlaying := p |}) in *.
    assert (Hs2 : timers_ok (step s (Elapse 3000))) by (apply step_timers_ok, Hs).
    assert (Ht2 : timers (step s (Elapse 3000)) = [t]) by exact Ht.
    assert (Hdue : deadline t <= now (step s (Elapse 3000))).
    { change (now (step s (Elapse 3000))) with (now s + Z.of_nat 3000).
      rewrite Hnow. simpl. lia. }
    destruct (fire_due _ t Hs2 Ht2 Hdue) as (Hf & _).
    change (run s [Elapse 3000; TimerFires id])
      with (fire (tid t) (step s (Elapse 3000))).
    rewrite Hf. subst t. simpl. rewrite Hp. reflexivity.
  - intros Hp e id'.
    change (run s [Elapse e; TimerFires id']) with (fire id' (step s (Elapse e))).
    destruct (fire_showControls id' (step s (Elapse e))) as [-> | (_ & t & Hin & _ & Hc & _)].
    + exact Hshow.
    + change (timers (step s (Elapse e))) with (timers s) in Hin.
      rewrite Ht in Hin. destruct Hin as [<- | []]. simpl in Hc. congruence.
Qed.

(** X22, witness: a seek while playing, and a seek while paused. *)
Lemma auto_hide_witness :
  let playing := [PickVideo (DocumentPicker.Assets [Sample.a_mp4]);
                  PlaybackStatusUpdate 1 (Sample.loaded true 0 (Some 60000))] in
  let paused := [PickVideo (DocumentPicker.Assets [Sample.a_mp4]);
                 PlaybackStatusUpdate 1 (Sample.loaded false 0 (Some 60000))] in
  (exists id, showControls (run (step (run mount playing) SeekForward)
                              [Elapse 3000; TimerFires id]) = false) /\
  showControls (run (step (run mount paused) SeekForward)
                  [Elapse 5000; TimerFires 2]) = true.
Proof.
  intros playing paused. split.
  - apply (proj1 (auto_hide_follows_the_flag_at_the_press playing SeekForward eq_refl)).
    reflexivity.
  - apply (proj2 (auto_hide_follows_the_flag_at_the_press paused SeekForward eq_refl)).
    reflexivity.
Defined.

End PlayerIndicator.

(** ** Witness for the playing flag across a pick on the audio screen *)

(** X20, witness: a track is playing when another one is picked. *)
Lemma pick_keeps_the_playing_flag_witness :
  let engine := Sample.loaded false 0 (Some 180000) in
  let ops := [Audio.PickAudio (DocumentPicker.Assets [Sample.b_mp3]) (Some engine);
              Audio.TogglePlayPause engine] in
  let s' := Audio.step (Audio.run Audio.mount ops)
              (Audio.PickAudio (DocumentPicker.Assets [Sample.a_mp4]) (Some engine)) in
  Audio.isPlaying s' = true /\
  Audio.isPlaying (Audio.step s' (Audio.TogglePlayPause engine)) = false.
Proof.
  intros engine ops s'.
  destruct (pick_keeps_the_playing_flag ops Sample.a_mp4 [] engine) as (Hp & _ & Ht).
  split.
  - fold s' in Hp. rewrite Hp. reflexivity.
  - destruct (Ht engine eq_refl eq_refl) as (_ & Hf). exact Hf.
Defined.
